(** * smallsh: a shallow embedding of [smallsh.c]

    The development follows the source file top to bottom:

    - C strings, [strtok_r] with the single delimiter [" "], [strcpy] into
      a fixed-size buffer and [sprintf "%d"];
    - [parseUserCmd], with the argument array [cmdargs] of [main];
    - the wait-status macros and [reportExitStatus];
    - the children of the shell as seen through [waitpid];
    - the control loop of [main]: the sweep over [backgroundPids], the
      parent and the child branch of the [fork];
    - the handler [catchSIGTSTP];
    - the registry invariant, [terminatePidGroup], [getUserCmd] and
      [execute], with the scans that say what the parser makes of a line.

    A [string] stands for the contents of a NUL-terminated [char] buffer,
    so it holds no NUL character.  An [int] that holds a process ID or a
    wait status is a [Z]; array indices and counts, which the code only
    moves between 0 and the capacity, are [nat].  Behaviour that C leaves
    undefined (copying from [NULL], an index past the end of an array, a
    copy longer than its buffer) is an explicit [Fault]. *)

From Stdlib Require Import ZArith Ascii DecimalString.
From stdpp Require Import base list strings gmap.

Open Scope Z_scope.

(** ** Constants *)

Definition MAX_LINE_LENGTH : nat := 2048.
Definition MAX_LINE_ARGS : nat := 512.
Definition CMD_NAME : nat := 0.
Definition STDIN_NUM : Z := 0.
Definition STDOUT_NUM : Z := 1.
Definition STDOUT_FILENO : Z := 1.

(** Capacity of [backgroundPids] (line 97) and of the [tempStr] buffers of
    the parser (lines 346 and 353). *)
Definition BG_CAPACITY : nat := 100.
Definition REDIRECT_PATH_SIZE : nat := 512.

(** ** Results *)

Inductive fault : Type :=
| NullSource      (* strcpy reads from a NULL pointer *)
| NullDest        (* strcpy writes through a NULL pointer *)
| OutOfBounds     (* array index past the end of the array *)
| Overflow.       (* copy longer than the destination buffer *)

(** How a piece of code ends: it returns, it runs into undefined
    behaviour, it is suspended in [waitpid(pid, _, 0)] because no child
    selected by [pid] has terminated yet, or it calls [exit(code)]. *)
Inductive result (A : Type) : Type :=
| Ok (a : A)
| Fault (f : fault)
| Blocked (pid : Z)
| Exited (code : Z).

Arguments Ok {A} a.
Arguments Fault {A} f.
Arguments Blocked {A} pid.
Arguments Exited {A} code.

#[global] Instance result_ret : MRet result := fun _ a => Ok a.

#[global] Instance result_bind : MBind result := fun _ _ k r =>
  match r with
  | Ok a => k a
  | Fault f => Fault f
  | Blocked pid => Blocked pid
  | Exited code => Exited code
  end.

(** ** C strings *)

Module CStr.

Definition space : ascii := " "%char.
Definition dollar : ascii := "$"%char.

(** [s + strspn(s, " ")] *)
Fixpoint skip_spaces (s : string) : string :=
  match s with
  | String c rest => if Ascii.eqb c space then skip_spaces rest else s
  | EmptyString => EmptyString
  end.

(** The bytes before [s + strcspn(s, " ")], and the bytes from there on. *)
Fixpoint span_token (s : string) : string * string :=
  match s with
  | String c rest =>
      if Ascii.eqb c space then (EmptyString, s)
      else let '(tok, tl) := span_token rest in (String c tok, tl)
  | EmptyString => (EmptyString, EmptyString)
  end.

(** [strtok_r(s, " ", &saveptr)]: the token, if there is one, and the
    buffer [saveptr] is left pointing to.  A later call
    [strtok_r(NULL, " ", &saveptr)] is [strtok_r] on that buffer. *)
Definition strtok_r (s : string) : option (string * string) :=
  match skip_spaces s with
  | EmptyString => None
  | String c rest =>
      let '(tok, tl) := span_token (String c rest) in
      match tl with
      | EmptyString => Some (tok, EmptyString)
      | String _ after => Some (tok, after)   (* *end = '\0'; saveptr = end + 1 *)
      end
  end.

(** The pieces between single spaces, empty ones included. *)
Fixpoint fields (s : string) : list string :=
  match s with
  | EmptyString => [EmptyString]
  | String c rest =>
      if Ascii.eqb c space then EmptyString :: fields rest
      else match fields rest with
           | f :: fs => String c f :: fs
           | [] => [String c EmptyString]
           end
  end.

Definition nonempty (s : string) : bool :=
  match s with EmptyString => false | String _ _ => true end.

(** Every token that successive calls of [strtok_r] return on [s], in
    order; see [tokens_strtok_r]. *)
Definition tokens (s : string) : list string :=
  List.filter nonempty (fields s).

(** [sprintf("%d", z)] *)
Definition decimal (z : Z) : string := NilZero.string_of_int (Z.to_int z).

(** [strcpy(dst, src)] where [dst] is a buffer of [size] bytes: the
    copy, NUL included, has to fit. *)
Definition strcpy_into (size : nat) (src : string) : result string :=
  if (String.length src <? size)%nat then Ok src else Fault Overflow.

End CStr.

(** ** The parser: [parseUserCmd] (lines 324-399) *)

Module Parser.
Import CStr.

(** What [parseUserCmd] reads and writes through its pointer arguments:
    [args] is [cmdargs], an array of [MAX_LINE_ARGS] pointers, each [NULL]
    ([None]) or a buffer of [MAX_LINE_LENGTH] bytes; [input] and [output]
    are [inputfile] and [outputfile]. *)
Record cmdline : Type := Cmdline {
  args : list (option string);
  argCount : nat;
  input : option string;
  output : option string;
  backgroundFlag : bool
}.

Definition set_args (a : list (option string)) (c : cmdline) : cmdline :=
  Cmdline a (argCount c) (input c) (output c) (backgroundFlag c).
Definition set_argCount (n : nat) (c : cmdline) : cmdline :=
  Cmdline (args c) n (input c) (output c) (backgroundFlag c).
Definition set_input (p : option string) (c : cmdline) : cmdline :=
  Cmdline (args c) (argCount c) p (output c) (backgroundFlag c).
Definition set_output (p : option string) (c : cmdline) : cmdline :=
  Cmdline (args c) (argCount c) (input c) p (backgroundFlag c).
Definition set_backgroundFlag (b : bool) (c : cmdline) : cmdline :=
  Cmdline (args c) (argCount c) (input c) (output c) b.

(** [strcpy(args[idx], src)] *)
Definition strcpy_arg (a : list (option string)) (idx : nat) (src : string)
  : result (list (option string)) :=
  match a !! idx with
  | None => Fault OutOfBounds
  | Some None => Fault NullDest
  | Some (Some _) =>
      copy ← strcpy_into MAX_LINE_LENGTH src; Ok (<[idx := Some copy]> a)
  end.

(** The scan of lines 366-379: the bytes of [piece] before the first index
    [i] with [piece[i] == '$'], [i + 1 < strlen(piece)] and
    [piece[i + 1] == '$'], which is where the loop writes the NUL and
    breaks; [None] when the loop runs to the end. *)
Fixpoint pid_marker (piece : string) : option string :=
  match piece with
  | EmptyString => None
  | String c rest =>
      if Ascii.eqb c dollar
         && match rest with
            | String d _ => Ascii.eqb d dollar
            | EmptyString => false
            end
      then Some EmptyString
      else String c <$> pid_marker rest
  end.

(** Lines 363-387: the string copied into [args[idx]] for an argument. *)
Definition expand (parentPid : Z) (piece : string) : result string :=
  match pid_marker piece with
  | Some cut =>
      (* sprintf(expanded, "%s%d", piece, parentPid), expanded of 2048 bytes *)
      strcpy_into MAX_LINE_LENGTH (cut +:+ decimal parentPid)
  | None => Ok piece
  end.

(** Lines 394-398. [free(NULL)] does nothing, so only the index matters. *)
Definition finish (idx : nat) (c : cmdline) : result cmdline :=
  match args c !! idx with
  | None => Fault OutOfBounds
  | Some _ => Ok (set_args (<[idx := None]> (args c)) (set_argCount idx c))
  end.

(** The [while (piece)] loop of lines 341-393; [pieces] are the tokens
    [strtok_r] has still to return, the first of them being [piece]. *)
Fixpoint parse_rest (parentPid : Z) (pieces : list string) (idx : nat)
  (c : cmdline) : result cmdline :=
  match pieces with
  | [] => finish idx c
  | piece :: more =>
      if decide (piece = "<") then
        match more with
        | [] => Fault NullSource          (* strcpy(tempStr, NULL) *)
        | path :: more' =>
            tempStr ← strcpy_into REDIRECT_PATH_SIZE path;
            parse_rest parentPid more' idx (set_input (Some tempStr) c)
        end
      else if decide (piece = ">") then
        match more with
        | [] => Fault NullSource
        | path :: more' =>
            tempStr ← strcpy_into REDIRECT_PATH_SIZE path;
            parse_rest parentPid more' idx (set_output (Some tempStr) c)
        end
      else if decide (piece = "&") then
        parse_rest parentPid more idx (set_backgroundFlag true c)
      else
        arg ← expand parentPid piece;
        a ← strcpy_arg (args c) idx arg;
        parse_rest parentPid more (S idx) (set_args a c)
  end.

Definition parseUserCmd (parentPid : Z) (userline : string) (c : cmdline)
  : result cmdline :=
  match tokens userline with
  | [] => finish 0 c
  | piece :: more =>
      a ← strcpy_arg (args c) 0 piece;
      parse_rest parentPid more 1 (set_args a c)
  end.

(** [cmdargs] as [main] sets it up in lines 102-108, and the other parsing
    variables as they are declared. *)
Definition initial_cmdline : cmdline :=
  Cmdline (replicate MAX_LINE_ARGS (Some EmptyString)) 0 None None false.

(** Lines 242-264: the reset at the end of an iteration of the loop.  The
    bytes of the fresh buffer are indeterminate; nothing reads them before
    the next [strcpy] into it. *)
Definition reset_cmdline (c : cmdline) : result cmdline :=
  match args c !! argCount c with
  | None => Fault OutOfBounds
  | Some _ =>
      Ok (Cmdline (<[argCount c := Some EmptyString]> (args c)) 0 None None false)
  end.

(** The tokens after the command name that the loop stores as arguments. *)
Fixpoint ordinary (pieces : list string) : list string :=
  match pieces with
  | [] => []
  | piece :: more =>
      if decide (piece = "<") then
        match more with [] => [] | _ :: more' => ordinary more' end
      else if decide (piece = ">") then
        match more with [] => [] | _ :: more' => ordinary more' end
      else if decide (piece = "&") then ordinary more
      else piece :: ordinary more
  end.

(** The string lines 363-387 store for an argument. *)
Definition expanded (parentPid : Z) (piece : string) : string :=
  match pid_marker piece with
  | Some cut => cut +:+ decimal parentPid
  | None => piece
  end.

(** The argument vector of a line with the given tokens: the command name
    as typed, then the arguments. *)
Definition argv (parentPid : Z) (pieces : list string) : list string :=
  match pieces with
  | [] => []
  | name :: more => name :: (expanded parentPid <$> ordinary more)
  end.

(** Every element of [cmdargs] points to a buffer, as at the top of every
    iteration of the loop of [main]. *)
Definition allocated (a : list (option string)) : Prop :=
  length a = MAX_LINE_ARGS ∧ Forall is_Some a.

(** Every redirection operator the loop meets has a token after it. *)
Fixpoint targets_present (pieces : list string) : bool :=
  match pieces with
  | [] => true
  | piece :: more =>
      if decide (piece = "<") then
        match more with [] => false | _ :: more' => targets_present more' end
      else if decide (piece = ">") then
        match more with [] => false | _ :: more' => targets_present more' end
      else targets_present more
  end.

(** A line the buffers are large enough for. *)
Definition within_limits (parentPid : Z) (pieces : list string) : Prop :=
  (length (argv parentPid pieces) < MAX_LINE_ARGS)%nat ∧
  targets_present (tail pieces) = true ∧
  Forall (λ piece,
            (String.length piece < REDIRECT_PATH_SIZE)%nat ∧
            (String.length piece + String.length (decimal parentPid)
               < MAX_LINE_LENGTH)%nat) pieces.

End Parser.

(** ** Wait statuses and [reportExitStatus] (lines 453-470) *)

Module Status.
Import CStr.

(** The conversion of an [int] to [signed char]. *)
Definition signed_char (z : Z) : Z :=
  let low := z mod 256 in if low <? 128 then low else low - 256.

(** The macros of [<sys/wait.h>], as glibc defines them. *)
Definition WTERMSIG (status : Z) : Z := Z.land status 127.
Definition WEXITSTATUS (status : Z) : Z := Z.shiftr (Z.land status 65280) 8.
Definition WIFEXITED (status : Z) : bool := WTERMSIG status =? 0.
Definition WIFSIGNALED (status : Z) : bool :=
  0 <? Z.shiftr (signed_char (Z.land status 127 + 1)) 1.

Definition nl : string := String (ascii_of_nat 10) EmptyString.

(** What [reportExitStatus(exitMethod)] prints, one element for each
    [printf]. *)
Definition reportExitStatus (exitMethod : Z) : list string :=
  if WIFEXITED exitMethod then
    ["Exit Status: " +:+ decimal (WEXITSTATUS exitMethod) +:+ nl]
  else if WIFSIGNALED exitMethod then
    let termSignal := WTERMSIG exitMethod in
    if negb (termSignal =? 123) then
      ["Terminating Signal: " +:+ decimal termSignal +:+ nl]
    else []
  else [].

End Status.

(** ** The children of the shell, as [waitpid] shows them *)

Module Kernel.

Inductive pstate : Type :=
| Running
| Zombie (status : Z).      (* terminated with this wait status, not reaped *)

Record proc : Type := Proc { pgrp : Z; pst : pstate }.

(** The children of the shell that have not been reaped, by process ID,
    and the process group of the shell itself. *)
Record kernel : Type := Kernel {
  children : gmap Z proc;
  own_pgrp : Z
}.

Definition WNOHANG : Z := 1.

(** The children the first argument of [waitpid] selects: one child for a
    positive [pid], every child for -1, a process group otherwise. *)
Definition selected (k : kernel) (pid : Z) : list (Z * proc) :=
  if 0 <? pid then
    match children k !! pid with
    | Some p => [(pid, p)]
    | None => []
    end
  else
    List.filter
      (fun cp : Z * proc =>
         if pid =? -1 then true
         else if pid =? 0 then pgrp cp.2 =? own_pgrp k
         else pgrp cp.2 =? - pid)
      (map_to_list (children k)).

Definition zombie_status (cp : Z * proc) : option (Z * Z) :=
  match pst cp.2 with
  | Zombie status => Some (cp.1, status)
  | Running => None
  end.

(** [waitpid(pid, &status, options)]: the value returned, the value of
    [status] afterwards and the children left.  A terminated child is
    reaped; with none, the call returns 0 under [WNOHANG] and is suspended
    otherwise; with no child to wait for at all it returns -1 ([ECHILD]).
    When several selected children have terminated the first one found is
    taken. *)
Definition waitpid (pid : Z) (status : Z) (options : Z) (k : kernel)
  : result (Z * Z * kernel) :=
  match omap zombie_status (selected k pid) with
  | (child, st) :: _ =>
      Ok (child, st, Kernel (delete child (children k)) (own_pgrp k))
  | [] =>
      match selected k pid with
      | [] => Ok (-1, status, k)
      | _ :: _ =>
          if Z.land options WNOHANG =? 0 then Blocked pid
          else Ok (0, status, k)
      end
  end.

(** A running child terminates with the given wait status. *)
Definition terminate (child : Z) (status : Z) (k : kernel) : kernel :=
  Kernel (alter (fun p => match pst p with
                          | Running => Proc (pgrp p) (Zombie status)
                          | Zombie _ => p
                          end) child (children k))
         (own_pgrp k).

End Kernel.

(** ** The control loop of [main] and the signal handler *)

Module Shell.
Import CStr Status Kernel.

(** The two globals, the variables of [main] that outlive an iteration of
    the loop, the kernel's side of the children, and what has been written
    to descriptor 1 (by [printf] followed by [fflush], or by [write]). *)
Record shell : Type := MkShell {
  foregroundOnly : bool;
  fgPidForSignal : Z;
  childExitMethod : Z;
  backgroundPids : list Z;
  backgroundPidCount : nat;
  bgChildExitMethod : Z;
  os : kernel;
  stdout : list string
}.

Definition set_foregroundOnly (b : bool) (s : shell) : shell :=
  MkShell b (fgPidForSignal s) (childExitMethod s) (backgroundPids s)
    (backgroundPidCount s) (bgChildExitMethod s) (os s) (stdout s).
Definition set_fgPidForSignal (pid : Z) (s : shell) : shell :=
  MkShell (foregroundOnly s) pid (childExitMethod s) (backgroundPids s)
    (backgroundPidCount s) (bgChildExitMethod s) (os s) (stdout s).
Definition set_childExitMethod (st : Z) (s : shell) : shell :=
  MkShell (foregroundOnly s) (fgPidForSignal s) st (backgroundPids s)
    (backgroundPidCount s) (bgChildExitMethod s) (os s) (stdout s).
Definition set_backgroundPids (pids : list Z) (s : shell) : shell :=
  MkShell (foregroundOnly s) (fgPidForSignal s) (childExitMethod s) pids
    (backgroundPidCount s) (bgChildExitMethod s) (os s) (stdout s).
Definition set_backgroundPidCount (n : nat) (s : shell) : shell :=
  MkShell (foregroundOnly s) (fgPidForSignal s) (childExitMethod s)
    (backgroundPids s) n (bgChildExitMethod s) (os s) (stdout s).
Definition set_bgChildExitMethod (st : Z) (s : shell) : shell :=
  MkShell (foregroundOnly s) (fgPidForSignal s) (childExitMethod s)
    (backgroundPids s) (backgroundPidCount s) st (os s) (stdout s).
Definition set_os (k : kernel) (s : shell) : shell :=
  MkShell (foregroundOnly s) (fgPidForSignal s) (childExitMethod s)
    (backgroundPids s) (backgroundPidCount s) (bgChildExitMethod s) k (stdout s).
Definition print (lines : list string) (s : shell) : shell :=
  MkShell (foregroundOnly s) (fgPidForSignal s) (childExitMethod s)
    (backgroundPids s) (backgroundPidCount s) (bgChildExitMethod s) (os s)
    (stdout s ++ lines).

(** The state [main] starts its loop in (lines 57-58 and 93-100); the
    elements of [backgroundPids] are not initialised. *)
Definition initial_shell (k : kernel) : shell :=
  MkShell false (-5) (-5) (replicate BG_CAPACITY 0) 0 (-5) k [].

(** The registry: the process IDs [backgroundPids] holds below
    [backgroundPidCount]. *)
Definition registry (s : shell) : list Z :=
  take (backgroundPidCount s) (backgroundPids s).

(** *** The sweep over the background processes (lines 122-143) *)

(** Lines 136-139: the iterations [j], [j + 1], ... of which there are
    [n]; the caller passes [n = backgroundPidCount - idx]. *)
Fixpoint slide (j n : nat) (pids : list Z) : result (list Z) :=
  match n with
  | O => Ok pids
  | S n' =>
      match pids !! S j with
      | None => Fault OutOfBounds
      | Some next => slide (S j) n' (<[j := next]> pids)
      end
  end.

(** The body of the [for] loop of line 122 at index [idx]. *)
Definition sweep_body (idx : nat) (s : shell) : result shell :=
  match backgroundPids s !! idx with
  | None => Fault OutOfBounds
  | Some pid =>
      '(actualBgPid, status, k) ← waitpid pid (bgChildExitMethod s) WNOHANG (os s);
      let s := set_os k (set_bgChildExitMethod status s) in
      if actualBgPid =? 0 then Ok s
      else
        let s := print [decimal actualBgPid +:+ " has been reaped." +:+ nl] s in
        let s := print (reportExitStatus (bgChildExitMethod s)) s in
        pids ← slide idx (backgroundPidCount s - idx) (backgroundPids s);
        Ok (set_backgroundPidCount (backgroundPidCount s - 1)
              (set_backgroundPids pids s))
  end.

(** The [for] loop of line 122 from index [idx] on; every iteration
    brings [idx] closer to [backgroundPidCount], so [fuel] iterations are
    all of them when [backgroundPidCount - idx <= fuel]. *)
Fixpoint sweep_from (fuel idx : nat) (s : shell) : result shell :=
  match fuel with
  | O => Ok s
  | S fuel' =>
      if decide (idx < backgroundPidCount s)%nat then
        s' ← sweep_body idx s; sweep_from fuel' (S idx) s'
      else Ok s
  end.

Definition reap_sweep (s : shell) : result shell :=
  sweep_from (backgroundPidCount s) 0 s.

(** *** The decision path (lines 156-182) *)

Inductive action : Type :=
| DoNothing                            (* blank line or comment *)
| ChangeDirectory (filepath : option string)
| ExitShell
| ReportStatus
| Launch.                              (* fork and exec the command *)

Definition decide_action (c : Parser.cmdline) : result action :=
  match Parser.args c !! CMD_NAME with
  | None => Fault OutOfBounds
  | Some None => Ok DoNothing
  | Some (Some name) =>
      if decide (String.get 0 name = Some "#"%char) then Ok DoNothing
      else if decide (name = "cd") then
        match Parser.args c !! 1%nat with
        | None => Fault OutOfBounds
        | Some filepath => Ok (ChangeDirectory filepath)
        end
      else if decide (name = "exit") then Ok ExitShell
      else if decide (name = "status") then Ok ReportStatus
      else Ok Launch
  end.

(** *** The parent after [fork] (lines 209-236) *)

(** The test of line 214. *)
Definition runs_in_foreground (background : bool) (s : shell) : bool :=
  negb background || foregroundOnly s.

(** Lines 216-222.  While the parent is suspended in [waitpid] the global
    [fgPidForSignal] holds [forkPid]. *)
Definition wait_foreground (forkPid : Z) (s : shell) : result shell :=
  let s := set_fgPidForSignal forkPid s in
  '(_, status, k) ← waitpid forkPid (childExitMethod s) 0 (os s);
  let s := set_fgPidForSignal (-5) (set_os k (set_childExitMethod status s)) in
  if WIFSIGNALED (childExitMethod s)
  then Ok (print (reportExitStatus (childExitMethod s)) s)
  else Ok s.

(** Lines 227-230. *)
Definition register_background (forkPid : Z) (s : shell) : result shell :=
  match backgroundPids s !! backgroundPidCount s with
  | None => Fault OutOfBounds
  | Some _ =>
      let s := set_backgroundPids
                 (<[backgroundPidCount s := forkPid]> (backgroundPids s)) s in
      let s := set_backgroundPidCount (S (backgroundPidCount s)) s in
      Ok (print ["PID of new background process: " +:+ decimal forkPid +:+ nl] s)
  end.

(** The [default:] branch.  Lines 234-235 copy the saved descriptors back
    onto descriptors 0 and 1, which the parent never redirected: they
    change nothing in the state. *)
Definition parent_branch (forkPid : Z) (background : bool) (s : shell)
  : result shell :=
  if runs_in_foreground background s
  then wait_foreground forkPid s
  else register_background forkPid s.

(** *** The child after [fork] (lines 191-208 and 605-636) *)

Inductive oflag : Type :=
| O_RDONLY
| O_WRONLY
| O_WRONLY_CREAT_TRUNC.      (* O_WRONLY | O_CREAT | O_TRUNC, mode 0644 *)

Inductive stream : Type :=
| Inherited                          (* the descriptor the shell has *)
| Opened (path : string) (flags : oflag).

Inductive disposition : Type :=
| SigDefault
| SigIgnore
| SigCatch.                          (* handled by catchSIGTSTP *)

(** What the child sets up before [execvp]: descriptors 0 and 1 and the
    dispositions of the two signals. *)
Record child_setup : Type := ChildSetup {
  fd_stdin : stream;
  fd_stdout : stream;
  on_SIGINT : disposition;
  on_SIGTSTP : disposition
}.

(** The child right after [fork]: the descriptors of the shell and the
    dispositions [main] installed in lines 82-83. *)
Definition forked_child : child_setup :=
  ChildSetup Inherited Inherited SigIgnore SigCatch.

(** The file system: whether [open(path, flags)] succeeds. *)
Definition filesystem : Type := string → oflag → bool.

(** [open] followed by [dup2] onto a standard descriptor; a failed [open]
    ends in [exit(1)], in [openInpFile] and [openOutFile] directly, for
    the null device through the failing [dup2] of descriptor -1. *)
Definition open_onto (fs : filesystem) (path : string) (flags : oflag)
  : result stream :=
  if fs path flags then Ok (Opened path flags) else Exited 1.

Definition redirectStdIO (fs : filesystem) (newStdin newStdout : option string)
  (bgFlag : bool) (c : child_setup) : result child_setup :=
  fd0 ← match newStdin with
        | Some path => open_onto fs path O_RDONLY
        | None =>
            if bgFlag then open_onto fs "/dev/null" O_RDONLY
            else Ok (fd_stdin c)
        end;
  fd1 ← match newStdout with
        | Some path => open_onto fs path O_WRONLY_CREAT_TRUNC
        | None =>
            if bgFlag then open_onto fs "/dev/null" O_WRONLY
            else Ok (fd_stdout c)
        end;
  Ok (ChildSetup fd0 fd1 (on_SIGINT c) (on_SIGTSTP c)).

(** Lines 191-208 up to the call of [execute]: the set-up the program of
    the command starts with.  The child has its own copy of the globals,
    [s], and does not read them. *)
Definition child_branch (fs : filesystem) (inputfile outputfile : option string)
  (background : bool) (s : shell) : result child_setup :=
  c ← redirectStdIO fs inputfile outputfile background forked_child;
  let c := if negb background
           then ChildSetup (fd_stdin c) (fd_stdout c) SigDefault (on_SIGTSTP c)
           else c in
  Ok (ChildSetup (fd_stdin c) (fd_stdout c) (on_SIGINT c) SigIgnore).

(** *** The handler of the mode-toggle signal (lines 557-592) *)

Definition entering_msg : string :=
  nl +:+ "Entering foreground only mode. (& is now ignored)" +:+ nl +:+ ":".
Definition exiting_msg : string :=
  nl +:+ "Exiting foreground only mode." +:+ nl +:+ ":".

(** [write(STDOUT_FILENO, msg, n)] *)
Definition write_stdout (msg : string) (n : nat) (s : shell) : shell :=
  print [String.substring 0 n msg] s.

(** Lines 564-590. *)
Definition toggle_mode (s : shell) : shell :=
  if negb (foregroundOnly s) then
    let s := set_foregroundOnly true s in
    if negb (fgPidForSignal s =? -5)
    then write_stdout entering_msg 51 s
    else write_stdout entering_msg 52 s
  else
    let s := set_foregroundOnly false s in
    if negb (fgPidForSignal s =? -5)
    then write_stdout exiting_msg 31 s
    else write_stdout exiting_msg 32 s.

Definition catchSIGTSTP (s : shell) : result shell :=
  let exitMeth := -5 in
  '(_, _, k) ← waitpid (fgPidForSignal s) exitMeth 0 (os s);
  Ok (toggle_mode (set_os k s)).

End Shell.

(** ** The registry and the children *)

Module Registry.
Import Kernel Shell.

(** The entry at index [i] of [backgroundPids] names a child that is
    still running. *)
Definition running_entry (s : shell) (i : nat) : Prop :=
  ∃ pid g, backgroundPids s !! i = Some pid ∧ 0 < pid ∧
           children (os s) !! pid = Some (Proc g Running).

(** The registry as the loop of [main] keeps it: it fits the array, it
    holds no process ID twice, and every entry is the ID of a child that
    has not been reaped. *)
Definition registry_ok (s : shell) : Prop :=
  (backgroundPidCount s ≤ length (backgroundPids s))%nat ∧
  NoDup (registry s) ∧
  Forall (λ pid, 0 < pid ∧ is_Some (children (os s) !! pid)) (registry s).

(** [fork] in the parent: a new child, running, in the process group of
    the shell. *)
Definition fork_child (forkPid : Z) (k : kernel) : kernel :=
  Kernel (<[forkPid := Proc (own_pgrp k) Running]> (children k)) (own_pgrp k).

End Registry.

(** ** The [exit] built-in: [terminatePidGroup] (lines 433-445) *)

Module Shutdown.
Import Kernel Shell.

Definition SIGTERM : Z := 15.

(** Whether the first argument of [kill] selects the child [child]. *)
Definition targets (k : kernel) (pid child : Z) (p : proc) : bool :=
  if 0 <? pid then child =? pid
  else if pid =? -1 then true
  else if pid =? 0 then pgrp p =? own_pgrp k
  else pgrp p =? - pid.

(** Whether it selects the process group of the caller, and with it the
    caller. *)
Definition targets_caller (k : kernel) (pid : Z) : bool :=
  (pid =? 0) || ((pid <? -1) && (own_pgrp k =? - pid)).

(** [kill(pid, SIGTERM)] as the children of the shell take it: a running
    child that is selected and neither blocks nor ignores the signal
    ([heeds]) terminates, with the signal as its wait status. *)
Definition kill_SIGTERM (heeds : Z → bool) (pid : Z) (k : kernel) : kernel :=
  Kernel
    (map_imap (λ child p,
       Some (if targets k pid child p && heeds child
             then match pst p with
                  | Running => Proc (pgrp p) (Zombie SIGTERM)
                  | Zombie _ => p
                  end
             else p))
       (children k))
    (own_pgrp k).

(** How [terminatePidGroup] ends. It never returns: it calls [exit(0)]
    after the loop, unless a wait does not come back, the shell falls to
    its own signal, or the loop reads past the array. *)
Inductive shutdown : Type :=
| ExitsWith (code : Z) (k : kernel)
| StuckOn (pid : Z) (k : kernel)
| KilledBy (signal : Z) (k : kernel)
| Undefined (f : fault).

(** The loop of lines 438-442 from index [i] on, [n] iterations. *)
Fixpoint terminate_loop (heeds : Z → bool) (bgProcs : list Z) (i n : nat)
  (exitMethod : Z) (k : kernel) : shutdown :=
  match n with
  | O => ExitsWith 0 k
  | S n' =>
      match bgProcs !! i with
      | None => Undefined OutOfBounds
      | Some pid =>
          let k := kill_SIGTERM heeds pid k in
          if targets_caller k pid then KilledBy SIGTERM k
          else
            match waitpid pid exitMethod 0 k with
            | Ok (_, status, k') =>
                terminate_loop heeds bgProcs (S i) n' status k'
            | Blocked p => StuckOn p k
            | Fault f => Undefined f
            | Exited code => ExitsWith code k
            end
      end
  end.

Definition terminatePidGroup (heeds : Z → bool) (bgProcs : list Z)
  (numBgProcs : nat) (k : kernel) : shutdown :=
  terminate_loop heeds bgProcs 0 numBgProcs (-5) k.

(** Line 173: the call from the decision path. *)
Definition exit_builtin (heeds : Z → bool) (s : shell) : shutdown :=
  terminatePidGroup heeds (backgroundPids s) (backgroundPidCount s) (os s).

End Shutdown.

(** ** Reading the line: [getUserCmd] (lines 293-311) *)

Module Input.




End Input.

(** ** What the parser makes of the tokens *)

Module ParserSpec.
Import CStr Parser.

(** The calls of [strtok_r] the parser makes, one after the other, until
    [strtok_r] returns [NULL]; [fuel] bounds their number. *)
Fixpoint strtok_loop (fuel : nat) (s : string) : list string :=
  match fuel with
  | O => []
  | S fuel' =>
      match strtok_r s with
      | None => []
      | Some (tok, saveptr) => tok :: strtok_loop fuel' saveptr
      end
  end.

Fixpoint has_space (s : string) : bool :=
  match s with
  | EmptyString => false
  | String c rest => Ascii.eqb c space || has_space rest
  end.

(** A token as [strtok_r] returns them. *)
Definition is_token (t : string) : Prop :=
  t ≠ EmptyString ∧ has_space t = false.

(** The path the loop of the parser stores last for the operator [op]
    ("<" or ">"), if it meets the operator at all. *)
Fixpoint last_target (op : string) (pieces : list string) : option string :=
  match pieces with
  | [] => None
  | piece :: more =>
      if decide (piece = "<") then
        match more with
        | [] => None
        | path :: more' =>
            match last_target op more' with
            | Some later => Some later
            | None => if decide (op = "<") then Some path else None
            end
        end
      else if decide (piece = ">") then
        match more with
        | [] => None
        | path :: more' =>
            match last_target op more' with
            | Some later => Some later
            | None => if decide (op = ">") then Some path else None
            end
        end
      else last_target op more
  end.

(** The value of [*input] or [*output] after the loop: the path stored
    last, or the value before the call. *)
Definition or_else {A : Type} (stored before : option A) : option A :=
  match stored with Some x => Some x | None => before end.

(** Whether the loop meets the token "&". *)
Fixpoint background_seen (pieces : list string) : bool :=
  match pieces with
  | [] => false
  | piece :: more =>
      if decide (piece = "<") then
        match more with [] => false | _ :: more' => background_seen more' end
      else if decide (piece = ">") then
        match more with [] => false | _ :: more' => background_seen more' end
      else if decide (piece = "&") then true
      else background_seen more
  end.

(** The paths the loop copies into a [tempStr] buffer. *)
Fixpoint redirect_paths (pieces : list string) : list string :=
  match pieces with
  | [] => []
  | piece :: more =>
      if decide (piece = "<") then
        match more with [] => [] | path :: more' => path :: redirect_paths more' end
      else if decide (piece = ">") then
        match more with [] => [] | path :: more' => path :: redirect_paths more' end
      else redirect_paths more
  end.

(** A token the parser gives no meaning of its own: no operator, and no
    marker of the process ID in it. *)
Definition plain (piece : string) : Prop :=
  piece ≠ "<" ∧ piece ≠ ">" ∧ piece ≠ "&" ∧ pid_marker piece = None.

(** The lines the parser has room for: fewer arguments than [cmdargs] has
    elements, a path after every redirection operator, every argument
    shorter than its buffer of [MAX_LINE_LENGTH] bytes and every path
    shorter than its buffer of 512 bytes. *)
Definition fits (parentPid : Z) (pieces : list string) : Prop :=
  (length (argv parentPid pieces) < MAX_LINE_ARGS)%nat ∧
  targets_present (tail pieces) = true ∧
  Forall (λ arg, (String.length arg < MAX_LINE_LENGTH)%nat)
         (argv parentPid pieces) ∧
  Forall (λ path, (String.length path < REDIRECT_PATH_SIZE)%nat)
         (redirect_paths (tail pieces)).

End ParserSpec.

(** ** Wait statuses as the kernel builds them *)

Module WaitStatus.

(** The status of a child that called [exit(code)]: the low eight bits of
    the code, in bits 8 to 15. *)
Definition exited_status (code : Z) : Z := (code mod 256) * 256.

(** The status of a child terminated by [signal], with or without a core
    dump (bit 7). *)
Definition signaled_status (signal : Z) (core : bool) : Z :=
  signal + (if core then 128 else 0).

End WaitStatus.

(** ** The child up to the new program: [execute] (lines 478-485) *)

Module Exec.
Import Parser Shell.

(** A process after a successful [execvp]. *)
Record image : Type := Image {
  program : string;
  image_argv : list string;
  image_setup : child_setup
}.

(** The argument vector [execvp] reads: the strings up to the first
    [NULL]; without one the read runs past the array. *)
Fixpoint argv_upto_null (a : list (option string)) : result (list string) :=
  match a with
  | [] => Fault OutOfBounds
  | None :: _ => Ok []
  | Some arg :: rest => argv ← argv_upto_null rest; Ok (arg :: argv)
  end.

(** [execute(args)] in a child set up as [c].  [can_exec] says whether
    [execvp] finds the program and can run it; then [execvp] does not
    return ([Ok]: the child goes on as the new program).  Otherwise it
    returns -1 and the child calls [exit(1)]. *)
Definition execute (can_exec : string → bool) (a : list (option string))
  (c : child_setup) : result image :=
  match a !! CMD_NAME with
  | None => Fault OutOfBounds
  | Some None => Fault NullSource        (* execvp reads the name *)
  | Some (Some name) =>
      argv ← argv_upto_null a;
      if can_exec name then Ok (Image name argv c) else Exited 1
  end.

(** The child branch of lines 191-208 as a whole. Line 206, [exit(0)], is
    reached only if [execute] returns, which it does not. *)
Definition child_process (fs : filesystem) (can_exec : string → bool)
  (c : cmdline) (s : shell) : result image :=
  setup ← child_branch fs (input c) (output c) (backgroundFlag c) s;
  execute can_exec (args c) setup.

End Exec.

(** * Properties *)

Import CStr Parser Status Kernel Shell Registry Shutdown.
Import Input ParserSpec WaitStatus Exec.

Lemma bind_Ok {A B : Type} (r : result A) (k : A → result B) (b : B) :
  r ≫= k = Ok b → ∃ a, r = Ok a ∧ k a = Ok b.
Proof. destruct r as [a|f|p|e]; simpl; [eauto | discriminate ..]. Qed.

(** A computation that got as far as [Ok] went through [Ok] at every
    step: this splits the binds of a hypothesis [_ = Ok _]. *)
Ltac ok_inv H :=
  let a := fresh "a" in
  let Ha := fresh "Ha" in
  apply bind_Ok in H; destruct H as (a & Ha & H).

(** ** [strtok_r] and [tokens] *)

Lemma fields_span_token (s : string) :
  fields s =
    match span_token s with
    | (tok, EmptyString) => [tok]
    | (tok, String _ after) => tok :: fields after
    end.
Proof.
  induction s as [|c rest IH]; [reflexivity|].
  simpl. destruct (Ascii.eqb c space) eqn:Hc; [reflexivity|].
  rewrite IH. destruct (span_token rest) as [tok tl].
  destruct tl; reflexivity.
Qed.

Lemma tokens_empty : tokens EmptyString = [].
Proof. reflexivity. Qed.

(** [tokens] is the sequence of tokens [strtok_r] hands out: the first
    call returns the head, and the calls on [saveptr] the rest. *)
Lemma tokens_strtok_r (s : string) :
  tokens s =
    match strtok_r s with
    | None => []
    | Some (tok, saveptr) => tok :: tokens saveptr
    end.
Proof.
  induction s as [|c rest IH]; [reflexivity|].
  unfold strtok_r. cbn [skip_spaces].
  destruct (Ascii.eqb c space) eqn:Hc.
  - unfold tokens. cbn [fields]. rewrite Hc. cbn [List.filter nonempty].
    exact IH.
  - unfold tokens. rewrite fields_span_token.
    cbn [span_token]. rewrite Hc.
    destruct (span_token rest) as [tok tl].
    destruct tl; reflexivity.
Qed.

(** No token is empty. *)
Lemma tokens_nonempty (s : string) : Forall (λ t, t ≠ EmptyString) (tokens s).
Proof.
  unfold tokens. apply List.Forall_forall. intros t Ht.
  apply List.filter_In in Ht as [_ Ht]. by destruct t.
Qed.

(** ** The parser *)

Lemma length_append (s1 s2 : string) :
  String.length (s1 +:+ s2) = (String.length s1 + String.length s2)%nat.
Proof. induction s1 as [|c s1 IH]; simpl; [done | by rewrite IH]. Qed.

(** Where the scan finds the marker, the piece is the part before it, the
    two dollar signs, and a rest. *)
Lemma pid_marker_Some (piece cut : string) :
  pid_marker piece = Some cut → ∃ rest, piece = cut +:+ "$$" +:+ rest.
Proof.
  revert cut. induction piece as [|c piece IH]; intros cut H; [done|].
  simpl in H.
  destruct (Ascii.eqb c dollar) eqn:Hc; simpl in H.
  - destruct piece as [|d piece'].
    + simpl in H. discriminate.
    + destruct (Ascii.eqb d dollar) eqn:Hd.
      * inversion H; subst. apply Ascii.eqb_eq in Hc, Hd. subst.
        by exists piece'.
      * destruct (pid_marker (String d piece')) as [cut'|] eqn:Hm; [|done].
        inversion H; subst. destruct (IH _ eq_refl) as [rest ->].
        by exists rest.
  - destruct (pid_marker piece) as [cut'|] eqn:Hm; [|done].
    inversion H; subst. destruct (IH _ eq_refl) as [rest ->]. by exists rest.
Qed.

Lemma pid_marker_length (piece cut : string) :
  pid_marker piece = Some cut → (String.length cut + 2 ≤ String.length piece)%nat.
Proof.
  intros [rest ->]%pid_marker_Some. rewrite !length_append. simpl. lia.
Qed.

Lemma strcpy_into_Ok (size : nat) (src dst : string) :
  strcpy_into size src = Ok dst → dst = src ∧ (String.length src < size)%nat.
Proof.
  unfold strcpy_into. destruct (String.length src <? size)%nat eqn:H; [|done].
  apply Nat.ltb_lt in H. by intros [= <-].
Qed.

Lemma strcpy_into_fits (size : nat) (src : string) :
  (String.length src < size)%nat → strcpy_into size src = Ok src.
Proof. intros H. unfold strcpy_into. by apply Nat.ltb_lt in H as ->. Qed.

Lemma expand_Ok (parentPid : Z) (piece arg : string) :
  expand parentPid piece = Ok arg → arg = expanded parentPid piece.
Proof.
  unfold expand, expanded. destruct (pid_marker piece).
  - by intros [-> _]%strcpy_into_Ok.
  - by inversion 1.
Qed.

Lemma strcpy_arg_Ok (a a' : list (option string)) (idx : nat) (src : string) :
  strcpy_arg a idx src = Ok a' →
  a' = <[idx := Some src]> a ∧ (idx < length a)%nat.
Proof.
  unfold strcpy_arg. destruct (a !! idx) as [[old|]|] eqn:Hl; [|done..].
  intros H. ok_inv H. apply strcpy_into_Ok in Ha as [-> _].
  inversion H; subst. split; [done|]. by eapply lookup_lt_Some.
Qed.

Lemma finish_Ok (idx : nat) (c c' : cmdline) :
  finish idx c = Ok c' →
  (idx < length (args c))%nat ∧ args c' = <[idx := None]> (args c) ∧
  argCount c' = idx ∧ input c' = input c ∧ output c' = output c ∧
  backgroundFlag c' = backgroundFlag c.
Proof.
  unfold finish. destruct (args c !! idx) eqn:Hl; [|done].
  inversion 1; subst. simpl. split; [by eapply lookup_lt_Some | done].
Qed.

(** What the loop has done when it returns: [idx] has moved past one slot
    for every argument, these slots hold the arguments in order, the slot
    after them is [NULL], and nothing below the starting index moved. *)
Lemma parse_rest_Ok (parentPid : Z) (n : nat) :
  ∀ (pieces : list string) (idx : nat) (c c' : cmdline),
    (length pieces ≤ n)%nat →
    parse_rest parentPid pieces idx c = Ok c' →
    length (args c') = length (args c) ∧
    argCount c' = (idx + length (ordinary pieces))%nat ∧
    take (argCount c') (args c') =
      take idx (args c) ++ (Some <$> (expanded parentPid <$> ordinary pieces)) ∧
    args c' !! argCount c' = Some None ∧
    (∀ i, (argCount c' < i)%nat → args c' !! i = args c !! i).
Proof.
  assert (Hbase : ∀ idx c c', finish idx c = Ok c' →
    length (args c') = length (args c) ∧
    argCount c' = (idx + length (ordinary []))%nat ∧
    take (argCount c') (args c') =
      take idx (args c) ++ (Some <$> (expanded parentPid <$> ordinary [])) ∧
    args c' !! argCount c' = Some None ∧
    (∀ i, (argCount c' < i)%nat → args c' !! i = args c !! i)).
  { intros idx c c' H.
    apply finish_Ok in H as (Hlt & Ha & Hc & _). rewrite Ha, Hc. simpl.
    rewrite length_insert, Nat.add_0_r, app_nil_r.
    rewrite take_insert_ge by lia.
    rewrite list_lookup_insert_eq by done.
    repeat split; try done.
    intros i Hi. apply list_lookup_insert_ne. lia. }
  induction n as [|n IH]; intros pieces idx c c' Hn H.
  - destruct pieces; [|simpl in Hn; lia]. by apply Hbase.
  - destruct pieces as [|piece more]; [by apply Hbase|].
    simpl in Hn. simpl in H. simpl ordinary.
    destruct (decide (piece = "<")).
    { destruct more as [|path more']; [done|].
      ok_inv H. apply (IH more' idx) in H; [exact H | simpl in Hn; lia]. }
    destruct (decide (piece = ">")).
    { destruct more as [|path more']; [done|].
      ok_inv H. apply (IH more' idx) in H; [exact H | simpl in Hn; lia]. }
    destruct (decide (piece = "&")).
    { apply (IH more idx) in H; [exact H | lia]. }
    ok_inv H. apply expand_Ok in Ha. subst a.
    ok_inv H. apply strcpy_arg_Ok in Ha as [-> Hlt].
    apply (IH more (S idx)) in H; [|lia].
    destruct H as (Hlen & Hcount & Htake & Hnull & Hframe). simpl in *.
    rewrite length_insert in Hlen.
    split; [done|]. split; [lia|]. split; [|split; [done|]].
    + rewrite Htake.
      rewrite (take_S_r _ _ (Some (expanded parentPid piece)))
        by by rewrite list_lookup_insert_eq.
      rewrite take_insert_ge by lia. by rewrite <- app_assoc.
    + intros i Hi. rewrite Hframe by done.
      apply list_lookup_insert_ne. lia.
Qed.

(** The loop returns on a line that stays within the buffers. *)
Lemma parse_rest_returns (parentPid : Z) (n : nat) :
  ∀ (pieces : list string) (idx : nat) (c : cmdline),
    (length pieces ≤ n)%nat →
    targets_present pieces = true →
    Forall (λ piece,
              (String.length piece < REDIRECT_PATH_SIZE)%nat ∧
              (String.length piece + String.length (decimal parentPid)
                 < MAX_LINE_LENGTH)%nat) pieces →
    (idx + length (ordinary pieces) < length (args c))%nat →
    (∀ i, (idx ≤ i < length (args c))%nat → ∃ b, args c !! i = Some (Some b)) →
    ∃ c', parse_rest parentPid pieces idx c = Ok c'.
Proof.
  induction n as [|n IH]; intros pieces idx c Hn Ht Hfit Hidx Halloc.
  - destruct pieces; [|simpl in Hn; lia]. simpl in *.
    unfold finish. destruct (Halloc idx) as [b ->]; [lia|]. eauto.
  - destruct pieces as [|piece more].
    { simpl in *. unfold finish. destruct (Halloc idx) as [b ->]; [lia|]. eauto. }
    simpl in Hn, Ht, Hidx. simpl.
    apply Forall_cons in Hfit as [[Hp1 Hp2] Hfit].
    destruct (decide (piece = "<")).
    { destruct more as [|path more']; [done|].
      apply Forall_cons in Hfit as [[Hq1 Hq2] Hfit].
      rewrite strcpy_into_fits by done. simpl.
      apply IH; [simpl in Hn; lia | done..]. }
    destruct (decide (piece = ">")).
    { destruct more as [|path more']; [done|].
      apply Forall_cons in Hfit as [[Hq1 Hq2] Hfit].
      rewrite strcpy_into_fits by done. simpl.
      apply IH; [simpl in Hn; lia | done..]. }
    destruct (decide (piece = "&")).
    { apply IH; [lia | done..]. }
    simpl in Hidx.
    assert (Hlen : (String.length (expanded parentPid piece) < MAX_LINE_LENGTH)%nat).
    { unfold expanded. destruct (pid_marker piece) as [cut|] eqn:Hm.
      - apply pid_marker_length in Hm. rewrite length_append. lia.
      - unfold REDIRECT_PATH_SIZE, MAX_LINE_LENGTH in *. lia. }
    assert (Hex : expand parentPid piece = Ok (expanded parentPid piece)).
    { unfold expand, expanded in *. destruct (pid_marker piece); [|done].
      by apply strcpy_into_fits. }
    rewrite Hex. simpl. unfold strcpy_arg.
    destruct (Halloc idx) as [b ->]; [lia|].
    rewrite strcpy_into_fits by done. simpl.
    apply IH; simpl; [lia | done | done | rewrite length_insert; lia |].
    intros i Hi. rewrite length_insert in Hi.
    rewrite list_lookup_insert_ne by lia. apply Halloc. lia.
Qed.

Lemma allocated_lookup (a : list (option string)) (i : nat) :
  allocated a → (i < length a)%nat → ∃ b, a !! i = Some (Some b).
Proof.
  intros [_ Hall] Hi. destruct (lookup_lt_is_Some_2 a i Hi) as [x Hx].
  rewrite Hx. eapply Forall_lookup_1 in Hall; [|exact Hx].
  destruct Hall as [b ->]. eauto.
Qed.

Lemma allocated_initial : allocated (args initial_cmdline).
Proof.
  unfold allocated, initial_cmdline. cbn [args]. split.
  - apply length_replicate.
  - apply Forall_replicate. eauto.
Qed.

(** What a returning call of the parser leaves behind. *)
Lemma parseUserCmd_Ok (parentPid : Z) (userline : string) (c0 c : cmdline) :
  parseUserCmd parentPid userline c0 = Ok c →
  length (args c) = length (args c0) ∧
  argCount c = length (argv parentPid (tokens userline)) ∧
  take (argCount c) (args c) = Some <$> argv parentPid (tokens userline) ∧
  args c !! argCount c = Some None ∧
  (∀ i, (argCount c < i)%nat → args c !! i = args c0 !! i).
Proof.
  unfold parseUserCmd, argv. destruct (tokens userline) as [|name more].
  - intros H.
    apply (parse_rest_Ok parentPid 0 [] 0) in H; [|done].
    destruct H as (Hlen & Hcount & Htake & Hnull & Hframe). simpl in *.
    done.
  - intros H. ok_inv H. apply strcpy_arg_Ok in Ha as [-> Hlt].
    apply (parse_rest_Ok parentPid (length more) more 1) in H; [|done].
    destruct H as (Hlen & Hcount & Htake & Hnull & Hframe). simpl in *.
    rewrite length_insert in Hlen. rewrite length_fmap.
    split; [done|]. split; [done|]. split; [|split; [done|]].
    + rewrite Htake. destruct (args c0); [simpl in Hlt; lia | done].
    + intros i Hi. rewrite Hframe by done. apply list_lookup_insert_ne. lia.
Qed.

Lemma parseUserCmd_returns (parentPid : Z) (userline : string) (c0 : cmdline) :
  allocated (args c0) →
  within_limits parentPid (tokens userline) →
  ∃ c, parseUserCmd parentPid userline c0 = Ok c.
Proof.
  intros Halloc (Hlen & Ht & Hfit). destruct Halloc as [Hcap Hall].
  unfold parseUserCmd, argv in *. destruct (tokens userline) as [|name more].
  - apply (parse_rest_returns parentPid 0 [] 0); simpl; try done.
    + rewrite Hcap. unfold MAX_LINE_ARGS. lia.
    + intros i Hi. apply allocated_lookup; [done | lia].
  - simpl in Hlen, Ht. rewrite length_fmap in Hlen.
    apply Forall_cons in Hfit as [[Hn1 Hn2] Hfit].
    unfold strcpy_arg.
    destruct (allocated_lookup (args c0) 0) as [b ->];
      [done | rewrite Hcap; unfold MAX_LINE_ARGS; lia |].
    rewrite strcpy_into_fits
      by (unfold REDIRECT_PATH_SIZE, MAX_LINE_LENGTH in *; lia).
    simpl.
    apply (parse_rest_returns parentPid (length more) more 1); simpl; try done.
    + rewrite length_insert, Hcap. lia.
    + intros i Hi. rewrite length_insert in Hi.
      rewrite list_lookup_insert_ne by lia.
      apply allocated_lookup; [done | lia].
Qed.

(** The reset at the end of the iteration gives the emptied slot a buffer
    again, so the next call of the parser starts from an array in which
    every element is allocated. *)
Lemma reset_cmdline_allocated (parentPid : Z) (userline : string) (c0 c : cmdline) :
  allocated (args c0) →
  parseUserCmd parentPid userline c0 = Ok c →
  ∃ c1, reset_cmdline c = Ok c1 ∧ allocated (args c1) ∧
        argCount c1 = 0%nat ∧ input c1 = None ∧ output c1 = None ∧
        backgroundFlag c1 = false.
Proof.
  intros [Hcap Hall] H.
  apply parseUserCmd_Ok in H as (Hlen & Hcount & Htake & Hnull & Hframe).
  unfold reset_cmdline. rewrite Hnull. eexists. split; [done|]. simpl.
  split; [|done]. split; [by rewrite length_insert, Hlen|].
  apply Forall_lookup_2. intros i x Hx.
  destruct (decide (i = argCount c)) as [->|Hne].
  - rewrite list_lookup_insert_eq in Hx by by eapply lookup_lt_Some.
    inversion Hx. eauto.
  - rewrite list_lookup_insert_ne in Hx by done.
    destruct (decide (i < argCount c)%nat) as [Hlt|Hge].
    + assert (Hx' : take (argCount c) (args c) !! i = Some x)
        by by rewrite lookup_take_lt.
      rewrite Htake, list_lookup_fmap in Hx'.
      destruct (argv parentPid (tokens userline) !! i); by inversion Hx'.
    + rewrite Hframe in Hx by lia.
      by eapply Forall_lookup_1 in Hall.
Qed.

(** C10. After every call of [parseUserCmd] that starts from an array with
    all its elements allocated, as every call from the loop of [main]
    does: elements 0 to [argCount - 1] of the argument array hold the
    parsed arguments in order and element [argCount] is [NULL], and for a
    line without a token [argCount] is 0 and element 0 is [NULL].  The
    call does return on every line that stays within the sizes of the
    buffers. *)
Theorem parseUserCmd_null_terminated
    (parentPid : Z) (userline : string) (c0 : cmdline) :
  allocated (args c0) →
  (within_limits parentPid (tokens userline) →
     ∃ c, parseUserCmd parentPid userline c0 = Ok c) ∧
  (∀ c, parseUserCmd parentPid userline c0 = Ok c →
     argCount c = length (argv parentPid (tokens userline)) ∧
     take (argCount c) (args c) = Some <$> argv parentPid (tokens userline) ∧
     args c !! argCount c = Some None ∧
     (tokens userline = [] →
        argCount c = 0%nat ∧ args c !! CMD_NAME = Some None)).
Proof.
  intros Halloc. split.
  - by apply parseUserCmd_returns.
  - intros c H.
    apply parseUserCmd_Ok in H as (Hlen & Hcount & Htake & Hnull & _).
    split; [done|]. split; [done|]. split; [done|].
    intros Hblank. rewrite Hcount, Hblank in Hnull.
    by rewrite Hcount, Hblank.
Qed.

Lemma parseUserCmd_null_terminated_witness :
  ∃ c, parseUserCmd 4242 "echo $$ > out.txt &" initial_cmdline = Ok c ∧
       take (argCount c) (args c) = [Some "echo"; Some "4242"] ∧
       args c !! argCount c = Some None.
Proof.
  destruct (parseUserCmd_null_terminated 4242 "echo $$ > out.txt &"
              initial_cmdline allocated_initial) as [Hret Hinv].
  destruct Hret as [c Hc].
  { split; [vm_compute; lia|]. split; [reflexivity|].
    repeat constructor; vm_compute; lia. }
  exists c. split; [exact Hc|].
  destruct (Hinv c Hc) as (_ & Htake & Hnull & _).
  split; [exact Htake | exact Hnull].
Defined.

(** A line without a token is the no-op of the decision path, and a line
    with one is decided by its first token as typed. *)
Lemma decide_action_blank (parentPid : Z) (userline : string) (c0 c : cmdline) :
  tokens userline = [] →
  parseUserCmd parentPid userline c0 = Ok c →
  decide_action c = Ok DoNothing.
Proof.
  intros Hblank H.
  apply parseUserCmd_Ok in H as (_ & Hcount & _ & Hnull & _).
  rewrite Hcount, Hblank in Hnull. simpl in Hnull.
  unfold decide_action, CMD_NAME. by rewrite Hnull.
Qed.

Lemma decide_action_name (parentPid : Z) (userline : string) (c0 c : cmdline)
    (name : string) (more : list string) :
  tokens userline = name :: more →
  parseUserCmd parentPid userline c0 = Ok c →
  args c !! CMD_NAME = Some (Some name).
Proof.
  intros Htok H.
  apply parseUserCmd_Ok in H as (_ & Hcount & Htake & _).
  rewrite Htok in Hcount, Htake. simpl in Hcount, Htake.
  rewrite Hcount in Htake. simpl in Htake.
  destruct (args c) as [|a0 rest]; by inversion Htake.
Qed.

(** A line with as many tokens as [cmdargs] has elements leaves no slot
    for the terminating [NULL]: line 397 indexes past the array. *)
Example parseUserCmd_full_array :
  parseUserCmd 4242 (String.concat " " (replicate MAX_LINE_ARGS "a"))
    initial_cmdline = Fault OutOfBounds.
Proof. vm_compute. reflexivity. Qed.

(** Where the scan finds the marker, the argument stored is the part of
    the token before it followed by the process ID; the part of the token
    after the marker is not in it. *)
Lemma expanded_marker (parentPid : Z) (piece cut : string) :
  pid_marker piece = Some cut →
  ∃ rest, piece = cut +:+ "$$" +:+ rest ∧
          expanded parentPid piece = cut +:+ decimal parentPid.
Proof.
  intros H. destruct (pid_marker_Some _ _ H) as [rest Hrest].
  exists rest. split; [done|]. unfold expanded. by rewrite H.
Qed.

(** C1. With process ID 4242 the line [echo a$$b] is parsed into the
    arguments [echo] and [a4242]: the [b] after the marker is lost, where
    the claim has [a4242b].  On the line [$$ x$$y$$] the command name
    stays [$$], and the argument becomes [x4242], where the claim has
    [4242] and [x4242y4242]. *)
Theorem parseUserCmd_expansion_truncates :
  (∃ c, parseUserCmd 4242 "echo a$$b" initial_cmdline = Ok c ∧
        take (argCount c) (args c) = [Some "echo"; Some "a4242"]) ∧
  (∃ c, parseUserCmd 4242 "$$ x$$y$$" initial_cmdline = Ok c ∧
        take (argCount c) (args c) = [Some "$$"; Some "x4242"]).
Proof.
  split; (eexists; split; [vm_compute; reflexivity | reflexivity]).
Qed.

(** C4. On the lines [cat <] and [cat >] the parser asks [strtok_r] for
    the path, gets [NULL] and copies from it (lines 345-347 and 352-354):
    the call ends in undefined behaviour, not in a reported failure. *)
Theorem parseUserCmd_dangling_redirect (parentPid : Z) :
  parseUserCmd parentPid "cat <" initial_cmdline = Fault NullSource ∧
  parseUserCmd parentPid "cat >" initial_cmdline = Fault NullSource.
Proof. split; vm_compute; reflexivity. Qed.

(** The same holds wherever the loop meets a redirection operator as the
    last token. *)
Lemma parse_rest_dangling (parentPid : Z) (piece : string) (idx : nat) (c : cmdline) :
  piece = "<" ∨ piece = ">" →
  parse_rest parentPid [piece] idx c = Fault NullSource.
Proof. by intros [-> | ->]. Qed.

(** ** Wait statuses *)

Lemma WTERMSIG_range (status : Z) : 0 ≤ WTERMSIG status < 128.
Proof.
  unfold WTERMSIG. change 127 with (Z.ones 7).
  rewrite Z.land_ones by lia. apply Z.mod_pos_bound. lia.
Qed.

(** A status says "terminated by a signal" exactly when its low seven
    bits are a number from 1 to 126. *)
Lemma WIFSIGNALED_iff (status : Z) :
  WIFSIGNALED status = true ↔ 1 ≤ WTERMSIG status ≤ 126.
Proof.
  pose proof (WTERMSIG_range status) as Hr.
  unfold WIFSIGNALED, signed_char. fold (WTERMSIG status).
  set (t := WTERMSIG status) in *.
  rewrite (Z.mod_small (t + 1) 256) by lia.
  rewrite Z.shiftr_div_pow2 by lia. change (2 ^ 1) with 2.
  destruct (t + 1 <? 128) eqn:Hlt.
  - apply Z.ltb_lt in Hlt. rewrite Z.ltb_lt.
    pose proof (Z.div_mod (t + 1) 2 ltac:(lia)).
    pose proof (Z.mod_pos_bound (t + 1) 2 ltac:(lia)). lia.
  - apply Z.ltb_ge in Hlt. replace (t + 1 - 256) with (-128) by lia.
    split; [done | lia].
Qed.

Lemma WIFSIGNALED_not_WIFEXITED (status : Z) :
  WIFSIGNALED status = true → WIFEXITED status = false.
Proof.
  intros H%WIFSIGNALED_iff. unfold WIFEXITED. apply Z.eqb_neq. lia.
Qed.

Lemma reportExitStatus_exited (status : Z) :
  WIFEXITED status = true →
  reportExitStatus status =
    ["Exit Status: " +:+ decimal (WEXITSTATUS status) +:+ nl].
Proof. intros H. unfold reportExitStatus. by rewrite H. Qed.

Lemma reportExitStatus_signaled (status : Z) :
  WIFSIGNALED status = true → WTERMSIG status ≠ 123 →
  reportExitStatus status =
    ["Terminating Signal: " +:+ decimal (WTERMSIG status) +:+ nl].
Proof.
  intros Hsig Hne. unfold reportExitStatus.
  rewrite (WIFSIGNALED_not_WIFEXITED _ Hsig), Hsig.
  by apply Z.eqb_neq in Hne as ->.
Qed.

(** The value [main] gives [childExitMethod] before any foreground
    command has run reads as "terminated by signal 123", which is the one
    signal number [reportExitStatus] keeps silent about. *)
Lemma initial_status_silent :
  WIFSIGNALED (-5) = true ∧ WTERMSIG (-5) = 123 ∧ reportExitStatus (-5) = [].
Proof. by vm_compute. Qed.

(** ** [waitpid] on a single child *)

Lemma waitpid_zombie (pid status0 options : Z) (k : kernel) (g status : Z) :
  0 < pid →
  children k !! pid = Some (Proc g (Zombie status)) →
  waitpid pid status0 options k =
    Ok (pid, status, Kernel (delete pid (children k)) (own_pgrp k)).
Proof.
  intros Hpos Hl. unfold waitpid, selected.
  apply Z.ltb_lt in Hpos as ->. by rewrite Hl.
Qed.

Lemma waitpid_running_blocks (pid status0 : Z) (k : kernel) (g : Z) :
  0 < pid →
  children k !! pid = Some (Proc g Running) →
  waitpid pid status0 0 k = Blocked pid.
Proof.
  intros Hpos Hl. unfold waitpid, selected.
  apply Z.ltb_lt in Hpos as ->. by rewrite Hl.
Qed.

Lemma waitpid_running_nohang (pid status0 : Z) (k : kernel) (g : Z) :
  0 < pid →
  children k !! pid = Some (Proc g Running) →
  waitpid pid status0 WNOHANG k = Ok (0, status0, k).
Proof.
  intros Hpos Hl. unfold waitpid, selected.
  apply Z.ltb_lt in Hpos as ->. by rewrite Hl.
Qed.

Lemma waitpid_no_child (pid status0 options : Z) (k : kernel) :
  0 < pid →
  children k !! pid = None →
  waitpid pid status0 options k = Ok (-1, status0, k).
Proof.
  intros Hpos Hl. unfold waitpid, selected.
  apply Z.ltb_lt in Hpos as ->. by rewrite Hl.
Qed.

(** A call of [waitpid] that returns leaves the children as they were,
    but for the one it reaped. *)
Lemma waitpid_Ok (pid status0 options : Z) (k k' : kernel) (ret status : Z) :
  waitpid pid status0 options k = Ok (ret, status, k') →
  own_pgrp k' = own_pgrp k ∧
  (k' = k ∧ status = status0 ∧ (ret = 0 ∨ ret = -1) ∨
   children k' = delete ret (children k)).
Proof.
  unfold waitpid.
  destruct (omap zombie_status (selected k pid)) as [|[child st] zs].
  - destruct (selected k pid); [by intros [= <- <- <-]; eauto 10|].
    destruct (Z.land options WNOHANG =? 0); [done|].
    intros [= <- <- <-]; eauto 10.
  - intros [= <- <- <-]. simpl. eauto.
Qed.

(** ** The parent after [fork] *)

Lemma wait_foreground_zombie (forkPid : Z) (s : shell) (g status : Z) :
  0 < forkPid →
  children (os s) !! forkPid = Some (Proc g (Zombie status)) →
  ∃ s', wait_foreground forkPid s = Ok s' ∧
        childExitMethod s' = status ∧
        fgPidForSignal s' = -5 ∧
        children (os s') = delete forkPid (children (os s)) ∧
        backgroundPids s' = backgroundPids s ∧
        backgroundPidCount s' = backgroundPidCount s ∧
        stdout s' =
          stdout s ++ (if WIFSIGNALED status then reportExitStatus status else []).
Proof.
  intros Hpos Hl. unfold wait_foreground. cbn [os childExitMethod set_fgPidForSignal].
  rewrite (waitpid_zombie _ _ _ _ g status) by done. simpl.
  destruct (WIFSIGNALED status); eexists; (split; [done|]); simpl;
    rewrite ?app_nil_r; done.
Qed.

Lemma wait_foreground_running (forkPid : Z) (s : shell) (g : Z) :
  0 < forkPid →
  children (os s) !! forkPid = Some (Proc g Running) →
  wait_foreground forkPid s = Blocked forkPid.
Proof.
  intros Hpos Hl. unfold wait_foreground. cbn [os childExitMethod set_fgPidForSignal].
  by rewrite (waitpid_running_blocks _ _ _ g).
Qed.

(** The wait of the parent touches neither the array nor the count. *)
Lemma wait_foreground_registry (forkPid : Z) (s s' : shell) :
  wait_foreground forkPid s = Ok s' →
  backgroundPids s' = backgroundPids s ∧
  backgroundPidCount s' = backgroundPidCount s.
Proof.
  unfold wait_foreground. intros H. ok_inv H. destruct a as [[ret status] k].
  simpl in H. destruct (WIFSIGNALED status); by inversion H.
Qed.

(** A running child that terminates is the zombie [waitpid] finds. *)
Lemma terminate_lookup (child status : Z) (k : kernel) (g : Z) :
  children k !! child = Some (Proc g Running) →
  children (terminate child status k) !! child = Some (Proc g (Zombie status)).
Proof. intros H. unfold terminate. simpl. by rewrite lookup_alter_eq, H. Qed.

(** C7, as amended. For every wait status, [reportExitStatus] prints the
    exit code when the process exited normally, and the number of the
    terminating signal when the process was terminated by a signal other
    than 123; and when the wait for a foreground child returns with a
    status that says it was terminated by a signal other than 123, the
    notice with that number is printed right then. *)
Theorem reportExitStatus_rule (status : Z) :
  (WIFEXITED status = true →
     reportExitStatus status =
       ["Exit Status: " +:+ decimal (WEXITSTATUS status) +:+ nl]) ∧
  (WIFSIGNALED status = true → WTERMSIG status ≠ 123 →
     reportExitStatus status =
       ["Terminating Signal: " +:+ decimal (WTERMSIG status) +:+ nl]) ∧
  (∀ (forkPid : Z) (s : shell) (g : Z),
     0 < forkPid →
     children (os s) !! forkPid = Some (Proc g (Zombie status)) →
     WIFSIGNALED status = true → WTERMSIG status ≠ 123 →
     ∃ s', wait_foreground forkPid s = Ok s' ∧
           childExitMethod s' = status ∧
           stdout s' =
             stdout s ++
             ["Terminating Signal: " +:+ decimal (WTERMSIG status) +:+ nl]).
Proof.
  split; [apply reportExitStatus_exited|].
  split; [apply reportExitStatus_signaled|].
  intros forkPid s g Hpos Hl Hsig Hne.
  destruct (wait_foreground_zombie forkPid s g status Hpos Hl)
    as (s' & Hs' & Hst & _ & _ & _ & _ & Hout).
  exists s'. split; [done|]. split; [done|].
  by rewrite Hout, Hsig, reportExitStatus_signaled.
Qed.

Lemma reportExitStatus_rule_witness :
  reportExitStatus 256 = ["Exit Status: 1" +:+ nl] ∧
  reportExitStatus 2 = ["Terminating Signal: 2" +:+ nl] ∧
  ∃ s', wait_foreground 4243
          (initial_shell (Kernel {[4243 := Proc 1 (Zombie 2)]} 1)) = Ok s' ∧
        childExitMethod s' = 2 ∧
        stdout s' = ["Terminating Signal: 2" +:+ nl].
Proof.
  destruct (reportExitStatus_rule 256) as (Hexit & _ & _).
  destruct (reportExitStatus_rule 2) as (_ & Hsig & Hfg).
  split; [apply Hexit; reflexivity|].
  split; [apply Hsig; [reflexivity | vm_compute; lia]|].
  destruct (Hfg 4243 (initial_shell (Kernel {[4243 := Proc 1 (Zombie 2)]} 1)) 1)
    as (s' & Hwait & Hstatus & Hout);
    [lia | reflexivity | reflexivity | vm_compute; lia |].
  exists s'. split; [exact Hwait|]. split; [exact Hstatus | exact Hout].
Defined.

(** C7, as stated, fails on the value -5 that [childExitMethod] has until
    a foreground command has run, and on the status 123: both read as
    "terminated by signal 123", and [reportExitStatus] prints nothing for
    them; nor does the wait for a foreground child that returns with the
    status 123 print a notice. *)
Lemma reportExitStatus_silent_on_123 :
  childExitMethod (initial_shell (Kernel ∅ 1)) = -5 ∧
  WIFSIGNALED (-5) = true ∧ WTERMSIG (-5) = 123 ∧
  reportExitStatus (-5) = [] ∧
  WIFSIGNALED 123 = true ∧ WTERMSIG 123 = 123 ∧
  reportExitStatus 123 = [] ∧
  ∃ s', wait_foreground 4243
          (initial_shell (Kernel {[4243 := Proc 1 (Zombie 123)]} 1)) = Ok s' ∧
        childExitMethod s' = 123 ∧ stdout s' = [].
Proof.
  split; [reflexivity|]. do 6 (split; [reflexivity|]).
  eexists. split; [vm_compute; reflexivity|]. split; reflexivity.
Qed.

(** C6. In foreground-only mode, whatever the background flag of the
    command: while the child runs, the parent is suspended in the wait for
    this very child; once the child has terminated, the wait returns with
    its status and the child is reaped; and in no case does the parent
    touch the array of background process IDs or its count. *)
Theorem parent_branch_foreground_only
    (forkPid : Z) (background : bool) (s : shell) :
  foregroundOnly s = true →
  0 < forkPid →
  (∀ g, children (os s) !! forkPid = Some (Proc g Running) →
        parent_branch forkPid background s = Blocked forkPid) ∧
  (∀ g status,
     children (os s) !! forkPid = Some (Proc g (Zombie status)) →
     ∃ s', parent_branch forkPid background s = Ok s' ∧
           childExitMethod s' = status ∧
           children (os s') !! forkPid = None) ∧
  (∀ s', parent_branch forkPid background s = Ok s' →
         backgroundPids s' = backgroundPids s ∧
         backgroundPidCount s' = backgroundPidCount s ∧
         registry s' = registry s).
Proof.
  intros Hmode Hpos.
  assert (Hfg : parent_branch forkPid background s = wait_foreground forkPid s).
  { unfold parent_branch, runs_in_foreground. rewrite Hmode.
    by rewrite orb_true_r. }
  rewrite Hfg. split; [|split].
  - intros g Hl. by apply (wait_foreground_running _ _ g).
  - intros g status Hl.
    destruct (wait_foreground_zombie forkPid s g status Hpos Hl)
      as (s' & Hs' & Hst & _ & Hch & _).
    exists s'. split; [done|]. split; [done|].
    rewrite Hch. apply lookup_delete_eq.
  - intros s' Hs'. apply wait_foreground_registry in Hs' as [Hp Hc].
    unfold registry. by rewrite Hp, Hc.
Qed.

Lemma parent_branch_foreground_only_witness :
  let s := set_foregroundOnly true
             (initial_shell (Kernel {[4243 := Proc 1 Running]} 1)) in
  parent_branch 4243 true s = Blocked 4243 ∧
  ∃ s', parent_branch 4243 true (set_os (terminate 4243 0 (os s)) s) = Ok s' ∧
        childExitMethod s' = 0 ∧
        children (os s') !! 4243 = None ∧
        registry s' = [].
Proof.
  intros s. split.
  - destruct (parent_branch_foreground_only 4243 true s) as (Hrun & _ & _);
      [reflexivity | lia |].
    apply (Hrun 1). reflexivity.
  - destruct (parent_branch_foreground_only 4243 true
                (set_os (terminate 4243 0 (os s)) s)) as (_ & Hdone & Hreg);
      [reflexivity | lia |].
    destruct (Hdone 1 0) as (s' & Hs' & Hst & Hch); [reflexivity|].
    exists s'. split; [exact Hs'|]. split; [exact Hst|]. split; [exact Hch|].
    destruct (Hreg s' Hs') as (_ & _ & ->). reflexivity.
Defined.

(** ** The array of background process IDs *)

(** C9. The array has room for [BG_CAPACITY] = 100 process IDs.  Line 227
    writes at index [backgroundPidCount] without comparing it with the
    capacity: with fewer than 100 registered the write lands in the array
    and the registry grows by the new ID at its end; with 100 registered
    the write is past the end of the array. This is the branch a
    background command takes in normal mode. *)
Theorem register_background_capacity (forkPid : Z) (s : shell) :
  length (backgroundPids s) = BG_CAPACITY →
  ((backgroundPidCount s < 100)%nat →
     ∃ s', register_background forkPid s = Ok s' ∧
           length (backgroundPids s') = BG_CAPACITY ∧
           backgroundPidCount s' = S (backgroundPidCount s) ∧
           registry s' = registry s ++ [forkPid]) ∧
  ((100 ≤ backgroundPidCount s)%nat →
     register_background forkPid s = Fault OutOfBounds) ∧
  (foregroundOnly s = false →
     parent_branch forkPid true s = register_background forkPid s).
Proof.
  intros Hcap. unfold register_background. split; [|split].
  - intros Hlt.
    destruct (lookup_lt_is_Some_2 (backgroundPids s) (backgroundPidCount s))
      as [old Hold]; [rewrite Hcap; unfold BG_CAPACITY; lia|].
    rewrite Hold. eexists. split; [done|]. simpl.
    split; [by rewrite length_insert|]. split; [done|].
    unfold registry. simpl.
    rewrite (take_S_r _ _ forkPid).
    + by rewrite take_insert_ge by lia.
    + apply list_lookup_insert_eq. by eapply lookup_lt_Some.
  - intros Hge. rewrite lookup_ge_None_2; [done|].
    rewrite Hcap. unfold BG_CAPACITY. lia.
  - intros Hmode. unfold parent_branch, runs_in_foreground.
    by rewrite Hmode.
Qed.

Lemma register_background_capacity_witness :
  let s := initial_shell (Kernel {[4243 := Proc 1 Running]} 1) in
  (∃ s', register_background 4243 s = Ok s' ∧
         length (backgroundPids s') = BG_CAPACITY ∧
         backgroundPidCount s' = 1%nat ∧
         registry s' = [4243]) ∧
  register_background 4243 (set_backgroundPidCount 100 s) = Fault OutOfBounds ∧
  parent_branch 4243 true s = register_background 4243 s.
Proof.
  intros s.
  destruct (register_background_capacity 4243 s) as (Hroom & _ & Hbranch);
    [reflexivity|].
  destruct (register_background_capacity 4243 (set_backgroundPidCount 100 s))
    as (_ & Hfull & _); [reflexivity|].
  split; [|split].
  - destruct Hroom as (s' & Hs' & Hlen & Hcount & Hreg); [simpl; lia|].
    exists s'. split; [exact Hs'|]. split; [exact Hlen|].
    split; [exact Hcount | exact Hreg].
  - apply Hfull. simpl. lia.
  - apply Hbranch. reflexivity.
Defined.

(** ** The child after [fork] *)

(** The child is set up from the background flag of the command alone: the
    mode does not enter. *)
Lemma child_branch_ignores_mode
    (fs : filesystem) (inputfile outputfile : option string)
    (background mode : bool) (s : shell) :
  child_branch fs inputfile outputfile background (set_foregroundOnly mode s) =
  child_branch fs inputfile outputfile background s.
Proof. reflexivity. Qed.

(** With an open null device, a command flagged for the background and
    given no redirection gets the null device on both descriptors and
    keeps ignoring the interrupt signal. *)
Lemma child_branch_background (fs : filesystem) (s : shell) :
  fs "/dev/null" O_RDONLY = true →
  fs "/dev/null" O_WRONLY = true →
  child_branch fs None None true s =
    Ok (ChildSetup (Opened "/dev/null" O_RDONLY) (Opened "/dev/null" O_WRONLY)
          SigIgnore SigIgnore).
Proof.
  intros Hin Hout. unfold child_branch, redirectStdIO, open_onto.
  by rewrite Hin, Hout.
Qed.

(** A command without the flag gets the descriptors of the shell, where
    it has no redirection, and the default disposition of the interrupt
    signal. *)
Lemma child_branch_foreground (fs : filesystem) (s : shell) :
  child_branch fs None None false s =
    Ok (ChildSetup Inherited Inherited SigDefault SigIgnore).
Proof. reflexivity. Qed.

(** C2. In foreground-only mode the parent treats the command [sleep 5 &]
    (background flag set, no redirection) as a foreground command, and
    its child is set up as a background child all the same: standard
    input and output come from the null device, and the interrupt signal
    stays ignored. *)
Theorem child_branch_foreground_only (k : kernel) :
  let s := set_foregroundOnly true (initial_shell k) in
  runs_in_foreground true s = true ∧
  child_branch (λ _ _, true) None None true s =
    Ok (ChildSetup (Opened "/dev/null" O_RDONLY) (Opened "/dev/null" O_WRONLY)
          SigIgnore SigIgnore).
Proof. split; reflexivity. Qed.

(** ** The handler of the mode-toggle signal *)

Lemma toggle_mode_flag (s : shell) :
  foregroundOnly (toggle_mode s) = negb (foregroundOnly s).
Proof.
  unfold toggle_mode. destruct (foregroundOnly s); simpl;
    by destruct (fgPidForSignal s =? -5).
Qed.

(** The one write of the handler: a prefix of the message for the new
    mode, without its last byte (the prompt) while [main] waits for a
    foreground child. *)
Lemma toggle_mode_stdout (s : shell) :
  stdout (toggle_mode s) =
    stdout s ++
    [String.substring 0
       (if foregroundOnly s
        then (if fgPidForSignal s =? -5 then 32 else 31)
        else (if fgPidForSignal s =? -5 then 52 else 51))
       (if foregroundOnly s then exiting_msg else entering_msg)].
Proof.
  unfold toggle_mode. destruct (foregroundOnly s); simpl;
    by destruct (fgPidForSignal s =? -5).
Qed.

Lemma toggle_mode_frame (s : shell) :
  fgPidForSignal (toggle_mode s) = fgPidForSignal s ∧
  childExitMethod (toggle_mode s) = childExitMethod s ∧
  backgroundPids (toggle_mode s) = backgroundPids s ∧
  backgroundPidCount (toggle_mode s) = backgroundPidCount s ∧
  os (toggle_mode s) = os s.
Proof.
  unfold toggle_mode. destruct (foregroundOnly s); simpl;
    by destruct (fgPidForSignal s =? -5).
Qed.

Lemma catchSIGTSTP_Ok (s s' : shell) :
  catchSIGTSTP s = Ok s' →
  ∃ ret status k, waitpid (fgPidForSignal s) (-5) 0 (os s) = Ok (ret, status, k) ∧
                  s' = toggle_mode (set_os k s).
Proof.
  unfold catchSIGTSTP. intros H. ok_inv H. destruct a as [[ret status] k].
  simpl in H. inversion H. eauto.
Qed.

(** C8. Two deliveries of the mode-toggle signal, each handled to the
    end, leave [foregroundOnly] at the value it had before the first. *)
Theorem catchSIGTSTP_twice (s s1 s2 : shell) :
  catchSIGTSTP s = Ok s1 →
  catchSIGTSTP s1 = Ok s2 →
  foregroundOnly s2 = foregroundOnly s.
Proof.
  intros (r1 & st1 & k1 & _ & ->)%catchSIGTSTP_Ok
         (r2 & st2 & k2 & _ & ->)%catchSIGTSTP_Ok.
  rewrite toggle_mode_flag. cbn [foregroundOnly set_os].
  rewrite toggle_mode_flag. cbn [foregroundOnly set_os].
  apply negb_involutive.
Qed.

Lemma catchSIGTSTP_twice_witness :
  ∃ s1 s2,
    catchSIGTSTP (initial_shell (Kernel ∅ 1)) = Ok s1 ∧
    catchSIGTSTP s1 = Ok s2 ∧
    foregroundOnly s1 = true ∧
    foregroundOnly s2 = foregroundOnly (initial_shell (Kernel ∅ 1)).
Proof.
  eexists. eexists.
  split; [vm_compute; reflexivity|]. split; [vm_compute; reflexivity|].
  split; [reflexivity|].
  eapply catchSIGTSTP_twice; vm_compute; reflexivity.
Defined.

(** With no child for [waitpid] to select, the wait of the handler
    returns at once and the handler does its toggle. *)
Lemma catchSIGTSTP_no_child (s : shell) :
  selected (os s) (fgPidForSignal s) = [] →
  catchSIGTSTP s = Ok (toggle_mode s).
Proof.
  intros H. unfold catchSIGTSTP, waitpid. rewrite H. simpl.
  by destruct s as [? ? ? ? ? ? [] ?].
Qed.

(** C5, as amended. The handler starts with a wait without [WNOHANG] for
    the process [fgPidForSignal] names: while [main] waits for a
    foreground child that is still running, the handler is suspended in
    its own wait for that child.  When the wait of the handler returns,
    what the handler does is to flip [foregroundOnly] and to write one
    notification to descriptor 1; the other variables of the shell keep
    their values. *)
Theorem catchSIGTSTP_waits_then_toggles (s : shell) :
  (∀ g, 0 < fgPidForSignal s →
        children (os s) !! fgPidForSignal s = Some (Proc g Running) →
        catchSIGTSTP s = Blocked (fgPidForSignal s)) ∧
  (∀ s', catchSIGTSTP s = Ok s' →
     foregroundOnly s' = negb (foregroundOnly s) ∧
     (∃ n, stdout s' =
             stdout s ++
             [String.substring 0 n
                (if foregroundOnly s then exiting_msg else entering_msg)]) ∧
     fgPidForSignal s' = fgPidForSignal s ∧
     childExitMethod s' = childExitMethod s ∧
     bgChildExitMethod s' = bgChildExitMethod s ∧
     backgroundPids s' = backgroundPids s ∧
     backgroundPidCount s' = backgroundPidCount s).
Proof.
  split.
  - intros g Hpos Hl. unfold catchSIGTSTP.
    by rewrite (waitpid_running_blocks _ _ _ g).
  - intros s' (ret & status & k & _ & ->)%catchSIGTSTP_Ok.
    rewrite toggle_mode_flag, toggle_mode_stdout.
    destruct (toggle_mode_frame (set_os k s)) as (-> & -> & -> & -> & _).
    split; [done|]. split; [simpl; eauto|].
    unfold toggle_mode. simpl.
    by destruct (foregroundOnly s), (fgPidForSignal s =? -5).
Qed.

Lemma catchSIGTSTP_waits_then_toggles_witness :
  catchSIGTSTP
    (set_fgPidForSignal 4243
       (initial_shell (Kernel {[4243 := Proc 1 Running]} 1))) = Blocked 4243 ∧
  ∃ s', catchSIGTSTP (initial_shell (Kernel ∅ 1)) = Ok s' ∧
        foregroundOnly s' = true ∧
        stdout s' = [entering_msg].
Proof.
  split.
  - destruct (catchSIGTSTP_waits_then_toggles
                (set_fgPidForSignal 4243
                   (initial_shell (Kernel {[4243 := Proc 1 Running]} 1))))
      as [Hblock _].
    apply (Hblock 1); [simpl; lia | reflexivity].
  - destruct (catchSIGTSTP_waits_then_toggles (initial_shell (Kernel ∅ 1)))
      as [_ Hdone].
    eexists. split; [vm_compute; reflexivity|].
    split; [|reflexivity].
    eapply Hdone. vm_compute. reflexivity.
Defined.

(** C5, as stated, fails in the state [main] is in while it waits for the
    foreground child 4243: the handler does not get to its toggle, it is
    suspended in [waitpid(4243, _, 0)] until that child terminates. *)
Lemma catchSIGTSTP_blocks_on_foreground_child :
  wait_foreground 4243 (initial_shell (Kernel {[4243 := Proc 1 Running]} 1))
    = Blocked 4243 ∧
  catchSIGTSTP
    (set_fgPidForSignal 4243
       (initial_shell (Kernel {[4243 := Proc 1 Running]} 1))) = Blocked 4243 ∧
  catchSIGTSTP
    (set_fgPidForSignal 4243
       (initial_shell (Kernel {[4243 := Proc 1 Running]} 1))) ≠
  Ok (toggle_mode
        (set_fgPidForSignal 4243
           (initial_shell (Kernel {[4243 := Proc 1 Running]} 1)))).
Proof. split; [reflexivity|]. split; [reflexivity | discriminate]. Qed.

(** ** The sweep over the background processes *)

(** The inner loop moves the elements after [j] one slot down and leaves
    the others where they are; it reads the element at [j + n]. *)
Lemma slide_Ok (n : nat) :
  ∀ (j : nat) (pids pids' : list Z),
    slide j n pids = Ok pids' →
    length pids' = length pids ∧
    (n = 0%nat ∨ j + n < length pids)%nat ∧
    (∀ i, (i < j)%nat → pids' !! i = pids !! i) ∧
    (∀ i, (j ≤ i < j + n)%nat → pids' !! i = pids !! S i) ∧
    (∀ i, (j + n ≤ i)%nat → pids' !! i = pids !! i).
Proof.
  induction n as [|n IH]; intros j pids pids' H; simpl in H.
  - inversion H; subst. split; [done|]. split; [by left|].
    split; [done|]. split; [intros; lia | done].
  - destruct (pids !! S j) as [next|] eqn:Hnext; [|done].
    pose proof (lookup_lt_Some _ _ _ Hnext) as Hlt.
    apply IH in H as (Hlen & Hn & Hlow & Hmid & Hhigh).
    rewrite length_insert in Hlen, Hn.
    split; [done|]. split; [right; destruct n; lia|].
    split; [|split].
    + intros i Hi. rewrite Hlow by lia. apply list_lookup_insert_ne. lia.
    + intros i Hi. destruct (decide (i = j)) as [->|Hne].
      * rewrite Hlow by lia. rewrite list_lookup_insert_eq by lia. done.
      * rewrite Hmid by lia. apply list_lookup_insert_ne. lia.
    + intros i Hi. rewrite Hhigh by lia. apply list_lookup_insert_ne. lia.
Qed.

Lemma slide_returns (n : nat) :
  ∀ (j : nat) (pids : list Z),
    (j + n < length pids)%nat → ∃ pids', slide j n pids = Ok pids'.
Proof.
  induction n as [|n IH]; intros j pids Hlt; simpl; [eauto|].
  destruct (lookup_lt_is_Some_2 pids (S j)) as [next ->]; [lia|].
  apply IH. rewrite length_insert. lia.
Qed.

(** Sliding from [idx] removes entry [idx] from the registry. *)
Lemma slide_registry (idx count : nat) (pids pids' : list Z) :
  (idx < count)%nat →
  slide idx (count - idx) pids = Ok pids' →
  take (count - 1) pids' = delete idx (take count pids).
Proof.
  intros Hidx (Hlen & Hn & Hlow & Hmid & Hhigh)%slide_Ok.
  apply list_eq. intros i.
  destruct (decide (i < count - 1)%nat) as [Hi|Hi].
  - rewrite lookup_take_lt by done.
    destruct (decide (i < idx)%nat) as [Hlt|Hge].
    + rewrite list_lookup_delete_lt by done.
      rewrite lookup_take_lt by lia. by apply Hlow.
    + rewrite list_lookup_delete_ge by lia.
      rewrite lookup_take_lt by lia. apply Hmid. lia.
  - rewrite lookup_take_ge by lia.
    rewrite list_lookup_delete_ge by lia.
    by rewrite lookup_take_ge by lia.
Qed.

(** One iteration of the sweep leaves the registry as it is or removes
    the entry at [idx]. *)
Lemma sweep_body_Ok (idx : nat) (s s' : shell) :
  (idx < backgroundPidCount s)%nat →
  sweep_body idx s = Ok s' →
  length (backgroundPids s') = length (backgroundPids s) ∧
  (backgroundPidCount s' = backgroundPidCount s ∧ registry s' = registry s ∨
   backgroundPidCount s' = (backgroundPidCount s - 1)%nat ∧
   registry s' = delete idx (registry s)).
Proof.
  intros Hidx. unfold sweep_body.
  destruct (backgroundPids s !! idx) as [pid|]; [|done].
  intros H. ok_inv H. destruct a as [[ret status] k]. simpl in H.
  destruct (ret =? 0).
  - inversion H; subst. simpl. split; [done|]. by left.
  - apply bind_Ok in H as (pids & Hslide & H).
    inversion H; subst. simpl. unfold registry. simpl.
    pose proof (slide_Ok _ _ _ _ Hslide) as (Hlen & _).
    split; [done|]. right. split; [done|]. by apply slide_registry.
Qed.

(** The fuel of [reap_sweep] is enough: with more of it the loop does the
    same. *)
Lemma sweep_from_fuel (fuel : nat) :
  ∀ (extra idx : nat) (s : shell),
    (backgroundPidCount s - idx ≤ fuel)%nat →
    sweep_from (fuel + extra) idx s = sweep_from fuel idx s.
Proof.
  induction fuel as [|fuel IH]; intros extra idx s Hfuel.
  - simpl. destruct extra; simpl; [done|]. by rewrite decide_False by lia.
  - simpl. destruct (decide (idx < backgroundPidCount s)%nat) as [Hidx|]; [|done].
    destruct (sweep_body idx s) as [s'| | |] eqn:Hbody; simpl; try done.
    apply IH.
    apply sweep_body_Ok in Hbody as (_ & [[-> _] | [-> _]]); [lia..|done].
Qed.

(** The sweep keeps the order of the entries it leaves in the registry. *)
Lemma sweep_from_sublist (fuel : nat) :
  ∀ (idx : nat) (s s' : shell),
    sweep_from fuel idx s = Ok s' → registry s' `sublist_of` registry s.
Proof.
  induction fuel as [|fuel IH]; intros idx s s' H; simpl in H.
  - by inversion H.
  - destruct (decide (idx < backgroundPidCount s)%nat) as [Hidx|];
      [|by inversion H].
    ok_inv H. apply IH in H.
    apply sweep_body_Ok in Ha as (_ & [[_ Hreg] | [_ Hreg]]); [| |done];
      rewrite Hreg in H; [done|].
    etrans; [exact H | apply sublist_delete].
Qed.

Lemma reap_sweep_sublist (s s' : shell) :
  reap_sweep s = Ok s' → registry s' `sublist_of` registry s.
Proof. apply sweep_from_sublist. Qed.

(** A wait with [WNOHANG] always returns. *)
Lemma waitpid_nohang_returns (pid status0 : Z) (k : kernel) :
  ∃ ret status k', waitpid pid status0 WNOHANG k = Ok (ret, status, k').
Proof.
  unfold waitpid.
  destruct (omap zombie_status (selected k pid)) as [|[child st] zs]; [|eauto].
  destruct (selected k pid); simpl; eauto.
Qed.

(** With a free element at the end of the array the sweep returns. *)
Lemma sweep_from_returns (fuel : nat) :
  ∀ (idx : nat) (s : shell),
    (backgroundPidCount s < length (backgroundPids s))%nat →
    ∃ s', sweep_from fuel idx s = Ok s'.
Proof.
  induction fuel as [|fuel IH]; intros idx s Hroom; simpl; [eauto|].
  destruct (decide (idx < backgroundPidCount s)%nat) as [Hidx|]; [|eauto].
  assert (∃ s', sweep_body idx s = Ok s') as [s' Hbody].
  { unfold sweep_body.
    destruct (lookup_lt_is_Some_2 (backgroundPids s) idx) as [pid ->]; [lia|].
    destruct (waitpid_nohang_returns pid (bgChildExitMethod s) (os s))
      as (ret & status & k & ->). simpl.
    destruct (ret =? 0); [eauto|].
    destruct (slide_returns (backgroundPidCount s - idx) idx (backgroundPids s))
      as [pids ->]; [lia|]. simpl. eauto. }
  rewrite Hbody. simpl. apply IH.
  apply sweep_body_Ok in Hbody as (Hlen & [[Hc _] | [Hc _]]); [| |done];
    rewrite Hlen, Hc; lia.
Qed.

Lemma reap_sweep_returns (s : shell) :
  (backgroundPidCount s < length (backgroundPids s))%nat →
  ∃ s', reap_sweep s = Ok s'.
Proof. apply sweep_from_returns. Qed.

(** Whatever the two process IDs: when the registry is [p; q] and both
    have terminated, the sweep reaps [p] and leaves [q], unchecked, as the
    only entry. *)
Lemma reap_sweep_two_zombies
    (s : shell) (p q x : Z) (rest : list Z) (g1 g2 st1 st2 : Z) :
  backgroundPids s = p :: q :: x :: rest →
  backgroundPidCount s = 2%nat →
  0 < p → p ≠ q →
  children (os s) !! p = Some (Proc g1 (Zombie st1)) →
  children (os s) !! q = Some (Proc g2 (Zombie st2)) →
  ∃ s', reap_sweep s = Ok s' ∧
        registry s' = [q] ∧
        children (os s') !! q = Some (Proc g2 (Zombie st2)) ∧
        stdout s' =
          stdout s ++ [decimal p +:+ " has been reaped." +:+ nl]
                   ++ reportExitStatus st1.
Proof.
  intros Hpids Hcount Hpos Hne Hp Hq.
  unfold reap_sweep. rewrite Hcount. cbn [sweep_from].
  rewrite Hcount. rewrite decide_True by lia.
  unfold sweep_body. rewrite Hpids. cbn [lookup list_lookup].
  rewrite (waitpid_zombie _ _ _ _ g1 st1) by done.
  cbn [mbind result_bind].
  assert ((p =? 0) = false) as -> by (apply Z.eqb_neq; lia).
  cbn [backgroundPidCount backgroundPids set_os set_bgChildExitMethod print
       bgChildExitMethod].
  rewrite Hcount, Hpids. cbn.
  rewrite decide_False by lia.
  eexists. split; [done|]. unfold registry. cbn.
  split; [done|]. split; [by rewrite lookup_delete_ne|].
  by rewrite <- app_assoc.
Qed.

(** C3. Two background commands, 10 and 11, are registered in this order
    and both terminate before the next sweep.  The sweep reaps and
    reports 10, moves 11 into its slot and goes on to the next index: 11
    is not checked, stays in the registry and stays a zombie.  Only a
    second sweep reaps it. *)
Theorem reap_sweep_skips_neighbour :
  let k := Kernel {[10 := Proc 1 Running; 11 := Proc 1 Running]} 1 in
  ∃ s2 s3 s4,
    (s1 ← register_background 10 (initial_shell k);
     register_background 11 s1) = Ok s2 ∧
    registry s2 = [10; 11] ∧
    reap_sweep (set_os (terminate 11 0 (terminate 10 0 (os s2))) s2) = Ok s3 ∧
    registry s3 = [11] ∧
    children (os s3) !! 11 = Some (Proc 1 (Zombie 0)) ∧
    stdout s3 =
      stdout s2 ++ ["10 has been reaped." +:+ nl; "Exit Status: 0" +:+ nl] ∧
    reap_sweep s3 = Ok s4 ∧
    registry s4 = [] ∧
    children (os s4) !! 11 = None.
Proof.
  intros k. do 3 eexists.
  split; [vm_compute; reflexivity|]. split; [reflexivity|].
  split; [vm_compute; reflexivity|]. split; [reflexivity|].
  split; [reflexivity|]. split; [reflexivity|].
  split; [vm_compute; reflexivity|]. split; reflexivity.
Qed.

(** Closed side conditions on concrete lines and registries are decided
    by evaluation. *)
Ltac by_evaluation :=
  unfold within_limits, fits, plain, is_token;
  apply (bool_decide_unpack _); vm_compute; exact I.

(** * Further properties of the control loop *)

(** ** What [waitpid] does to the children *)

Lemma selected_lookup (k : kernel) (pid child : Z) (p : proc) :
  (child, p) ∈ selected k pid → children k !! child = Some p.
Proof.
  unfold selected. destruct (0 <? pid).
  - destruct (children k !! pid) as [p'|] eqn:Hl.
    + intros [= -> ->]%list_elem_of_singleton. done.
    + by intros ?%elem_of_nil.
  - intros H%list_elem_of_In. apply List.filter_In in H as [H _].
    apply list_elem_of_In in H. by apply elem_of_map_to_list in H.
Qed.

(** The child [waitpid] reaps was a zombie with the status it reports. *)
Lemma waitpid_reaps_zombie (pid status0 options : Z) (k : kernel) :
  match omap zombie_status (selected k pid) with
  | (child, st) :: _ => ∃ g, children k !! child = Some (Proc g (Zombie st))
  | [] => True
  end.
Proof.
  destruct (omap zombie_status (selected k pid)) as [|[child st] zs] eqn:Hz;
    [done|].
  assert (Hin : (child, st) ∈ omap zombie_status (selected k pid))
    by (rewrite Hz; left).
  apply list_elem_of_omap in Hin as ([c p] & Hsel & Hzs).
  unfold zombie_status in Hzs. simpl in Hzs.
  destruct p as [g [|st']]; simpl in Hzs; [done|].
  inversion Hzs; subst. apply selected_lookup in Hsel. eauto.
Qed.

(** A returning [waitpid] changes at most the child it returns: that
    child was a zombie and is gone afterwards; every other child is as it
    was. *)
Lemma waitpid_effect (pid status0 options : Z) (k k' : kernel) (ret status : Z) :
  waitpid pid status0 options k = Ok (ret, status, k') →
  (k' = k ∧ status = status0 ∧ (ret = 0 ∨ ret = -1)) ∨
  (∃ g, children k !! ret = Some (Proc g (Zombie status))) ∧
  k' = Kernel (delete ret (children k)) (own_pgrp k).
Proof.
  unfold waitpid.
  pose proof (waitpid_reaps_zombie pid status0 options k) as Hz.
  destruct (omap zombie_status (selected k pid)) as [|[child st] zs].
  - destruct (selected k pid); [intros [= <- <- <-]; eauto|].
    destruct (Z.land options WNOHANG =? 0); [done|].
    intros [= <- <- <-]; eauto.
  - intros [= <- <- <-]. right. eauto.
Qed.

Lemma waitpid_keeps_running
    (pid status0 options : Z) (k k' : kernel) (ret status child g : Z) :
  waitpid pid status0 options k = Ok (ret, status, k') →
  children k !! child = Some (Proc g Running) →
  children k' !! child = Some (Proc g Running).
Proof.
  intros [(-> & _) | [[g' Hz] ->]]%waitpid_effect Hrun; [done|]. simpl.
  rewrite lookup_delete_ne; [done|]. intros ->. congruence.
Qed.

(** ** One iteration of the sweep *)

(** The iteration at [idx] asks [waitpid] about the entry at [idx]; it
    keeps the registry when the answer is 0 and removes that entry
    otherwise. *)
Lemma sweep_body_effect (idx : nat) (s s' : shell) :
  (idx < backgroundPidCount s)%nat →
  sweep_body idx s = Ok s' →
  ∃ pid ret status,
    backgroundPids s !! idx = Some pid ∧
    waitpid pid (bgChildExitMethod s) WNOHANG (os s) = Ok (ret, status, os s') ∧
    foregroundOnly s' = foregroundOnly s ∧
    fgPidForSignal s' = fgPidForSignal s ∧
    childExitMethod s' = childExitMethod s ∧
    length (backgroundPids s') = length (backgroundPids s) ∧
    (ret = 0 ∧ backgroundPidCount s' = backgroundPidCount s ∧
       registry s' = registry s ∧ stdout s' = stdout s
     ∨
     ret ≠ 0 ∧ backgroundPidCount s' = (backgroundPidCount s - 1)%nat ∧
       registry s' = delete idx (registry s) ∧
       stdout s' = stdout s ++
                   [decimal ret +:+ " has been reaped." +:+ nl] ++
                   reportExitStatus status).
Proof.
  intros Hidx. unfold sweep_body.
  destruct (backgroundPids s !! idx) as [pid|]; [|done].
  intros H. apply bind_Ok in H as ([[ret status] k] & Hwait & H). simpl in H.
  exists pid, ret, status. split; [done|].
  destruct (ret =? 0) eqn:Hret.
  - apply Z.eqb_eq in Hret. inversion H; subst. simpl.
    repeat (split; [done|]). left. done.
  - apply Z.eqb_neq in Hret.
    apply bind_Ok in H as (pids & Hslide & H). inversion H; subst. simpl.
    pose proof (slide_Ok _ _ _ _ Hslide) as (Hlen & _).
    repeat (split; [done|]). right. split; [done|]. split; [done|].
    unfold registry. simpl. split; [by apply slide_registry|].
    by rewrite <- app_assoc.
Qed.

Lemma registry_lookup (s : shell) (idx : nat) (pid : Z) :
  (idx < backgroundPidCount s)%nat →
  backgroundPids s !! idx = Some pid →
  registry s !! idx = Some pid.
Proof. intros Hidx Hl. unfold registry. by rewrite lookup_take_lt. Qed.

(** An element of a list stays in it when an entry with another value is
    deleted. *)
Lemma elem_of_delete_other {A : Type} (l : list A) (i : nat) (x y : A) :
  x ∈ l → l !! i = Some y → x ≠ y → x ∈ delete i l.
Proof.
  intros [j Hj]%list_elem_of_lookup Hi Hne.
  apply list_elem_of_lookup.
  destruct (decide (j < i)%nat) as [Hlt|Hge].
  - exists j. by rewrite list_lookup_delete_lt.
  - assert (j ≠ i) by (intros ->; congruence).
    exists (j - 1)%nat. rewrite list_lookup_delete_ge by lia.
    by replace (S (j - 1)) with j by lia.
Qed.

(** An entry whose child is still running is passed over: the iteration
    leaves the whole state as it is. *)
Lemma sweep_body_running (idx : nat) (s : shell) (pid g : Z) :
  backgroundPids s !! idx = Some pid →
  0 < pid →
  children (os s) !! pid = Some (Proc g Running) →
  sweep_body idx s = Ok s.
Proof.
  intros Hl Hpos Hrun. unfold sweep_body. rewrite Hl.
  rewrite (waitpid_running_nohang _ _ _ g) by done. simpl.
  by destruct s.
Qed.

(** The loop walks over a stretch of running entries without a change. *)
Lemma sweep_from_pass_running (n : nat) :
  ∀ (fuel idx : nat) (s : shell),
    (idx + n ≤ backgroundPidCount s)%nat →
    (∀ i, (idx ≤ i < idx + n)%nat → running_entry s i) →
    sweep_from (n + fuel) idx s = sweep_from fuel (idx + n) s.
Proof.
  induction n as [|n IH]; intros fuel idx s Hle Hrun.
  - by rewrite Nat.add_0_r.
  - simpl. rewrite decide_True by lia.
    destruct (Hrun idx) as (pid & g & Hl & Hpos & Hch); [lia|].
    rewrite (sweep_body_running _ _ pid g) by done. simpl.
    rewrite IH; [f_equal; lia | lia |]. intros i Hi. apply Hrun. lia.
Qed.

(** The children a sweep does not know stay unknown, and what the sweep
    has printed stays printed. *)
Lemma sweep_from_monotone (fuel : nat) :
  ∀ (idx : nat) (s s' : shell),
    sweep_from fuel idx s = Ok s' →
    (∀ pid, children (os s) !! pid = None → children (os s') !! pid = None) ∧
    (∃ more, stdout s' = stdout s ++ more) ∧
    foregroundOnly s' = foregroundOnly s ∧
    fgPidForSignal s' = fgPidForSignal s ∧
    childExitMethod s' = childExitMethod s ∧
    length (backgroundPids s') = length (backgroundPids s) ∧
    (backgroundPidCount s' ≤ backgroundPidCount s)%nat.
Proof.
  induction fuel as [|fuel IH]; intros idx s s' H; simpl in H.
  { inversion H; subst. repeat split; try done. exists []. by rewrite app_nil_r. }
  destruct (decide (idx < backgroundPidCount s)%nat) as [Hidx|].
  2:{ inversion H; subst. repeat split; try done.
      exists []. by rewrite app_nil_r. }
  apply bind_Ok in H as (s1 & Hbody & H).
  apply IH in H as (Hnone & [more Hout] & Hfo & Hfg & Hce & Hlen & Hcount).
  apply sweep_body_effect in Hbody
    as (pid & ret & status & _ & Hwait & Hfo1 & Hfg1 & Hce1 & Hlen1 & Hcase);
    [|done].
  split; [|split; [|repeat split; try congruence]].
  - intros p Hp. apply Hnone.
    apply waitpid_effect in Hwait as [(-> & _) | [_ ->]]; [done|]. simpl.
    rewrite lookup_delete_None. by right.
  - destruct Hcase as [(_ & _ & _ & Hout1) | (_ & _ & _ & Hout1)];
      rewrite Hout, Hout1; [eauto|].
    rewrite <- app_assoc. eauto.
  - destruct Hcase as [(_ & Hc & _) | (_ & Hc & _)]; lia.
Qed.

(** ** Safety and progress of the sweep *)

Lemma sweep_from_keeps_running (fuel : nat) (pid g : Z) :
  ∀ (idx : nat) (s s' : shell),
    sweep_from fuel idx s = Ok s' →
    0 < pid →
    pid ∈ registry s →
    children (os s) !! pid = Some (Proc g Running) →
    pid ∈ registry s' ∧ children (os s') !! pid = Some (Proc g Running).
Proof.
  induction fuel as [|fuel IH]; intros idx s s' H Hpos Hin Hrun; simpl in H.
  { by inversion H; subst. }
  destruct (decide (idx < backgroundPidCount s)%nat) as [Hidx|];
    [|by inversion H; subst].
  apply bind_Ok in H as (s1 & Hbody & H).
  apply sweep_body_effect in Hbody
    as (p & ret & status & Hl & Hwait & _ & _ & _ & _ & Hcase); [|done].
  apply (IH _ _ _ H Hpos).
  - destruct Hcase as [(_ & _ & -> & _) | (Hret & _ & -> & _)]; [done|].
    apply (elem_of_delete_other _ _ _ p); [done | by apply registry_lookup |].
    intros <-. rewrite (waitpid_running_nohang _ _ _ g) in Hwait by done.
    by inversion Hwait.
  - by eapply waitpid_keeps_running.
Qed.

(** X1. A sweep never drops a background process that is still running:
    it stays in the registry, and stays a running child. *)
Theorem reap_sweep_keeps_running (s s' : shell) (pid g : Z) :
  reap_sweep s = Ok s' →
  0 < pid →
  pid ∈ registry s →
  children (os s) !! pid = Some (Proc g Running) →
  pid ∈ registry s' ∧ children (os s') !! pid = Some (Proc g Running).
Proof. apply sweep_from_keeps_running. Qed.

Lemma reap_sweep_keeps_running_witness :
  ∃ s',
    reap_sweep
      (MkShell false (-5) (-5) ([10; 11; 12] ++ replicate 97 0) 3 (-5)
         (Kernel {[10 := Proc 1 (Zombie 0); 11 := Proc 1 Running;
                   12 := Proc 1 (Zombie 256)]} 1) []) = Ok s' ∧
    11 ∈ registry s' ∧ children (os s') !! 11 = Some (Proc 1 Running).
Proof.
  match goal with
  | |- ∃ s', reap_sweep ?s = _ ∧ _ =>
      destruct (reap_sweep_returns s) as [s' Hs']; [vm_compute; lia|];
      exists s'; split; [exact Hs'|];
      apply (reap_sweep_keeps_running s s' 11 1 Hs');
      [lia | apply (list_elem_of_lookup_2 _ 1); reflexivity | reflexivity]
  end.
Defined.

Lemma registry_length (s : shell) :
  (backgroundPidCount s ≤ length (backgroundPids s))%nat →
  length (registry s) = backgroundPidCount s.
Proof. intros H. unfold registry. by rewrite length_take_le. Qed.

Lemma registry_lookup_inv (s : shell) (idx : nat) (pid : Z) :
  registry s !! idx = Some pid →
  (idx < backgroundPidCount s)%nat ∧ backgroundPids s !! idx = Some pid.
Proof.
  unfold registry. intros H. apply lookup_take_Some in H as [H Hlt]. done.
Qed.

(** X2. A sweep over a registry in which every process is still running
    changes nothing at all: no message, no entry moved, no child reaped. *)
Theorem reap_sweep_all_running (s : shell) :
  (backgroundPidCount s ≤ length (backgroundPids s))%nat →
  Forall (λ pid, 0 < pid ∧
                 ∃ g, children (os s) !! pid = Some (Proc g Running))
         (registry s) →
  reap_sweep s = Ok s.
Proof.
  intros Hle Hall. unfold reap_sweep.
  rewrite <- (Nat.add_0_r (backgroundPidCount s)) at 1.
  rewrite sweep_from_pass_running; [done | lia |].
  intros i Hi.
  destruct (lookup_lt_is_Some_2 (registry s) i) as [pid Hpid];
    [rewrite registry_length by done; lia|].
  pose proof (Forall_lookup_1 _ _ _ _ Hall Hpid) as (Hpos & g & Hrun).
  apply registry_lookup_inv in Hpid as [_ Hpid]. by exists pid, g.
Qed.

Lemma reap_sweep_all_running_witness :
  reap_sweep
    (MkShell false (-5) (-5) ([10; 11] ++ replicate 98 0) 2 (-5)
       (Kernel {[10 := Proc 1 Running; 11 := Proc 1 Running]} 1) []) =
  Ok (MkShell false (-5) (-5) ([10; 11] ++ replicate 98 0) 2 (-5)
        (Kernel {[10 := Proc 1 Running; 11 := Proc 1 Running]} 1) []).
Proof.
  apply reap_sweep_all_running.
  - vm_compute. lia.
  - repeat constructor; try lia; by exists 1.
Defined.

(** The iteration at a terminated child: the child is reaped and reported,
    and its entry leaves the registry. *)
Lemma sweep_body_zombie (idx : nat) (s : shell) (pid g status : Z) :
  backgroundPids s !! idx = Some pid →
  (idx < backgroundPidCount s < length (backgroundPids s))%nat →
  0 < pid →
  children (os s) !! pid = Some (Proc g (Zombie status)) →
  ∃ s', sweep_body idx s = Ok s' ∧
        children (os s') = delete pid (children (os s)) ∧
        registry s' = delete idx (registry s) ∧
        backgroundPidCount s' = (backgroundPidCount s - 1)%nat ∧
        length (backgroundPids s') = length (backgroundPids s) ∧
        stdout s' = stdout s ++
                    [decimal pid +:+ " has been reaped." +:+ nl] ++
                    reportExitStatus status.
Proof.
  intros Hl Hidx Hpos Hz.
  assert (∃ s', sweep_body idx s = Ok s') as [s' Hs'].
  { unfold sweep_body. rewrite Hl.
    rewrite (waitpid_zombie _ _ _ _ g status) by done. simpl.
    assert ((pid =? 0) = false) as -> by (apply Z.eqb_neq; lia).
    destruct (slide_returns (backgroundPidCount s - idx) idx (backgroundPids s))
      as [pids ->]; [lia|]. simpl. eauto. }
  exists s'. split; [done|].
  apply sweep_body_effect in Hs'
    as (p & ret & st & Hl' & Hwait & _ & _ & _ & Hlen & Hcase); [|lia].
  rewrite Hl in Hl'. inversion Hl'; subst p.
  rewrite (waitpid_zombie _ _ _ _ g status) in Hwait by done.
  injection Hwait as Hret Hst Hos. subst ret st.
  destruct Hcase as [(? & _) | (_ & Hc & Hreg & Hout)]; [lia|].
  rewrite <- Hos. done.
Qed.

(** X3. Every sweep reaps the first terminated process of the registry:
    when the entries before it are running, it is reaped and reported in
    this sweep and, the registry holding no process ID twice, it is no
    longer registered afterwards. *)
Theorem reap_sweep_first_terminated
    (s : shell) (running rest : list Z) (pid g status : Z) :
  registry s = running ++ pid :: rest →
  (backgroundPidCount s < length (backgroundPids s))%nat →
  NoDup (registry s) →
  Forall (λ p, 0 < p ∧ ∃ g', children (os s) !! p = Some (Proc g' Running))
         running →
  0 < pid →
  children (os s) !! pid = Some (Proc g (Zombie status)) →
  ∃ s', reap_sweep s = Ok s' ∧
        children (os s') !! pid = None ∧
        (pid ∉ registry s') ∧
        ((decimal pid +:+ " has been reaped." +:+ nl) ∈ stdout s').
Proof.
  intros Hreg Hroom Hnodup Hrun Hpos Hz.
  assert (Hcount : backgroundPidCount s = (length running + S (length rest))%nat).
  { rewrite <- (registry_length s) by lia. by rewrite Hreg, length_app. }
  assert (Hat : backgroundPids s !! length running = Some pid).
  { apply (registry_lookup_inv s). rewrite Hreg.
    by rewrite list_lookup_middle. }
  assert (Hskip : reap_sweep s =
                  sweep_from (S (length rest)) (0 + length running) s).
  { unfold reap_sweep.
    rewrite <- (sweep_from_pass_running (length running)); [by rewrite Hcount|lia|].
    intros i Hi.
    destruct (lookup_lt_is_Some_2 running i) as [p Hp]; [lia|].
    pose proof (Forall_lookup_1 _ _ _ _ Hrun Hp) as (Hppos & g' & Hprun).
    exists p, g'. split; [|done].
    apply (registry_lookup_inv s). rewrite Hreg.
    by rewrite lookup_app_l by lia. }
  rewrite Hskip. cbn [sweep_from Nat.add]. rewrite decide_True by lia.
  destruct (sweep_body_zombie (length running) s pid g status)
    as (s1 & Hbody & Hch & Hreg1 & Hc1 & Hlen1 & Hout1); [done | lia | done..|].
  rewrite Hbody. cbn [mbind result_bind].
  destruct (sweep_from_returns (length rest) (S (length running)) s1)
    as [s' Hs']; [lia|].
  exists s'. split; [done|].
  pose proof (sweep_from_monotone _ _ _ _ Hs') as (Hnone & [more Hout] & _).
  pose proof (sweep_from_sublist _ _ _ _ Hs') as Hsub.
  split; [|split].
  - apply Hnone. rewrite Hch. apply lookup_delete_eq.
  - intros Hin. eapply elem_of_sublist in Hin; [|exact Hsub].
    rewrite Hreg1, Hreg in Hin. rewrite Hreg in Hnodup.
    rewrite delete_middle in Hin.
    apply NoDup_app in Hnodup as (_ & Hdisj & Hnd).
    apply NoDup_cons in Hnd as [Hnotin _].
    apply elem_of_app in Hin as [Hin|Hin]; [|done].
    apply (Hdisj pid Hin). left.
  - rewrite Hout, Hout1. set_solver.
Qed.

Lemma reap_sweep_first_terminated_witness :
  ∃ s',
    reap_sweep
      (MkShell false (-5) (-5) ([10; 11; 12] ++ replicate 97 0) 3 (-5)
         (Kernel {[10 := Proc 1 Running; 11 := Proc 1 (Zombie 0);
                   12 := Proc 1 (Zombie 0)]} 1) []) = Ok s' ∧
    children (os s') !! 11 = None ∧
    (11 ∉ registry s') ∧
    (("11 has been reaped." +:+ nl) ∈ stdout s').
Proof.
  apply (reap_sweep_first_terminated _ [10] [12] 11 1 0).
  - reflexivity.
  - vm_compute. lia.
  - apply (bool_decide_unpack _). vm_compute. exact I.
  - constructor; [split; [lia | by exists 1] | constructor].
  - lia.
  - reflexivity.
Defined.

(** Sliding up to the last element of the array reads the element after
    it. *)
Lemma slide_full (n : nat) :
  ∀ (j : nat) (pids : list Z),
    (0 < n)%nat → (j + n = length pids)%nat →
    slide j n pids = Fault OutOfBounds.
Proof.
  induction n as [|n IH]; intros j pids Hn Hlen; [lia|]. simpl.
  destruct n as [|n].
  - rewrite lookup_ge_None_2 by lia. done.
  - destruct (lookup_lt_is_Some_2 pids (S j)) as [next ->]; [lia|].
    apply IH; [lia | rewrite length_insert; lia].
Qed.

(** X4. With all 100 slots of [backgroundPids] in use, the sweep cannot
    remove an entry: sliding the later entries down reads
    [backgroundPids[100]], past the end of the array, as soon as the
    first terminated process is found. *)
Theorem reap_sweep_full_registry
    (s : shell) (running rest : list Z) (pid g status : Z) :
  length (backgroundPids s) = BG_CAPACITY →
  backgroundPidCount s = 100%nat →
  registry s = running ++ pid :: rest →
  Forall (λ p, 0 < p ∧ ∃ g', children (os s) !! p = Some (Proc g' Running))
         running →
  0 < pid →
  children (os s) !! pid = Some (Proc g (Zombie status)) →
  reap_sweep s = Fault OutOfBounds.
Proof.
  intros Hcap Hfull Hreg Hrun Hpos Hz. unfold BG_CAPACITY in Hcap.
  assert (Hcount : backgroundPidCount s = (length running + S (length rest))%nat).
  { rewrite <- (registry_length s) by lia. by rewrite Hreg, length_app. }
  assert (Hat : backgroundPids s !! length running = Some pid).
  { apply (registry_lookup_inv s). rewrite Hreg.
    by rewrite list_lookup_middle. }
  assert (Hskip : reap_sweep s =
                  sweep_from (S (length rest)) (0 + length running) s).
  { unfold reap_sweep.
    rewrite <- (sweep_from_pass_running (length running)); [by rewrite Hcount|lia|].
    intros i Hi.
    destruct (lookup_lt_is_Some_2 running i) as [p Hp]; [lia|].
    pose proof (Forall_lookup_1 _ _ _ _ Hrun Hp) as (Hppos & g' & Hprun).
    exists p, g'. split; [|done].
    apply (registry_lookup_inv s). rewrite Hreg.
    by rewrite lookup_app_l by lia. }
  rewrite Hskip. cbn [sweep_from Nat.add]. rewrite decide_True by lia.
  unfold sweep_body. rewrite Hat.
  rewrite (waitpid_zombie _ _ _ _ g status) by done. cbn [mbind result_bind].
  assert ((pid =? 0) = false) as -> by (apply Z.eqb_neq; lia).
  cbn [backgroundPidCount backgroundPids set_os set_bgChildExitMethod print].
  rewrite slide_full; [done | lia | lia].
Qed.

Lemma reap_sweep_full_registry_witness :
  reap_sweep
    (MkShell false (-5) (-5) (7 :: replicate 99 8) 100 (-5)
       (Kernel {[7 := Proc 1 (Zombie 0)]} 1) []) = Fault OutOfBounds.
Proof.
  apply (reap_sweep_full_registry _ [] (replicate 99 8) 7 1 0).
  - reflexivity.
  - reflexivity.
  - reflexivity.
  - constructor.
  - lia.
  - reflexivity.
Defined.

(** ** The [exit] built-in *)

(** [kill] with a positive process ID touches that child only. *)
Lemma kill_SIGTERM_lookup (heeds : Z → bool) (pid child : Z) (k : kernel) :
  0 < pid →
  children (kill_SIGTERM heeds pid k) !! child =
    if decide (child = pid) then
      (λ p, if heeds child
            then match pst p with
                 | Running => Proc (pgrp p) (Zombie SIGTERM)
                 | Zombie _ => p
                 end
            else p) <$> children k !! child
    else children k !! child.
Proof.
  intros Hpos. unfold kill_SIGTERM. cbn [children].
  rewrite map_lookup_imap. unfold targets.
  apply Z.ltb_lt in Hpos as ->.
  destruct (children k !! child) as [p|]; simpl; [|by case_decide].
  case_decide as Hc.
  - subst. by rewrite Z.eqb_refl.
  - by apply Z.eqb_neq in Hc as ->.
Qed.

Lemma targets_caller_positive (k : kernel) (pid : Z) :
  0 < pid → targets_caller k pid = false.
Proof.
  intros Hpos. unfold targets_caller.
  assert ((pid =? 0) = false) as -> by (apply Z.eqb_neq; lia).
  assert ((pid <? -1) = false) as -> by (apply Z.ltb_ge; lia). done.
Qed.

(** The loop over a stretch of entries that are distinct children, each
    terminated already or heeding the signal: every one of them is reaped,
    and no other child is touched. *)
Lemma terminate_loop_prefix (heeds : Z → bool) (bgProcs : list Z) (n : nat) :
  ∀ (m i : nat) (exitMethod : Z) (k : kernel),
    (∀ j, (i ≤ j < i + n)%nat →
          ∃ pid p, bgProcs !! j = Some pid ∧ 0 < pid ∧
                   children k !! pid = Some p ∧
                   (pst p = Running → heeds pid = true)) →
    (∀ j1 j2 pid, (i ≤ j1 < i + n)%nat → (i ≤ j2 < i + n)%nat →
                  bgProcs !! j1 = Some pid → bgProcs !! j2 = Some pid →
                  j1 = j2) →
    ∃ exitMethod' k',
      terminate_loop heeds bgProcs i (n + m) exitMethod k =
        terminate_loop heeds bgProcs (i + n) m exitMethod' k' ∧
      own_pgrp k' = own_pgrp k ∧
      (∀ j pid, (i ≤ j < i + n)%nat → bgProcs !! j = Some pid →
                children k' !! pid = None) ∧
      (∀ q, (∀ j, (i ≤ j < i + n)%nat → bgProcs !! j ≠ Some q) →
            children k' !! q = children k !! q).
Proof.
  induction n as [|n IH]; intros m i exitMethod k Hchild Hinj.
  - exists exitMethod, k. rewrite Nat.add_0_r. simpl.
    split; [done|]. split; [done|]. split; [intros; lia | done].
  - destruct (Hchild i) as (pid & p & Hl & Hpos & Hp & Hheeds); [lia|].
    cbn [terminate_loop Nat.add]. rewrite Hl.
    rewrite targets_caller_positive by done.
    set (k1 := kill_SIGTERM heeds pid k).
    assert (Hz : ∃ st, children k1 !! pid = Some (Proc (pgrp p) (Zombie st))).
    { unfold k1. rewrite kill_SIGTERM_lookup by done.
      rewrite decide_True by done. rewrite Hp. simpl.
      destruct p as [g [|st]]; simpl in *; [rewrite Hheeds by done|]; eauto.
      destruct (heeds pid); eauto. }
    destruct Hz as [st Hz].
    rewrite (waitpid_zombie _ _ _ _ (pgrp p) st) by done.
    set (k2 := Kernel (delete pid (children k1)) (own_pgrp k1)).
    assert (Hother : ∀ q, q ≠ pid → children k2 !! q = children k !! q).
    { intros q Hq. unfold k2, k1. cbn [children].
      rewrite lookup_delete_ne by done.
      rewrite kill_SIGTERM_lookup by done. by rewrite decide_False. }
    destruct (IH m (S i) st k2) as (st' & k' & Heq & Hgrp & Hreaped & Hkeep).
    { intros j Hj. destruct (Hchild j) as (q & pq & Hlq & Hqpos & Hq & Hqh); [lia|].
      exists q, pq. split; [done|]. split; [done|]. split; [|done].
      rewrite Hother; [done|]. intros ->.
      assert (j = i) by (apply (Hinj j i pid); [lia | lia | done..]). lia. }
    { intros j1 j2 q Hj1 Hj2. apply Hinj; lia. }
    exists st', k'. replace (i + S n)%nat with (S i + n)%nat by lia.
    split; [done|]. split; [by rewrite Hgrp|]. split.
    + intros j q Hj Hlq. destruct (decide (j = i)) as [->|Hne].
      * rewrite Hl in Hlq. inversion Hlq; subst q.
        rewrite Hkeep.
        -- unfold k2. cbn [children]. apply lookup_delete_eq.
        -- intros j Hj' Hlj.
           assert (j = i) by (apply (Hinj j i pid); [lia | lia | done..]). lia.
      * apply (Hreaped j); [lia | done].
    + intros q Hq. rewrite Hkeep by (intros j Hj; apply Hq; lia).
      apply Hother. intros ->. by apply (Hq i); [lia|].
Qed.

Lemma registry_ok_entry (s : shell) (j : nat) :
  registry_ok s → (j < backgroundPidCount s)%nat →
  ∃ pid p, backgroundPids s !! j = Some pid ∧ registry s !! j = Some pid ∧
           0 < pid ∧ children (os s) !! pid = Some p.
Proof.
  intros (Hle & _ & Hall) Hj.
  destruct (lookup_lt_is_Some_2 (registry s) j) as [pid Hpid];
    [rewrite registry_length by done; lia|].
  pose proof (Forall_lookup_1 _ _ _ _ Hall Hpid) as (Hpos & p & Hp).
  exists pid, p. by apply registry_lookup_inv in Hpid as Hl; destruct Hl.
Qed.

Lemma registry_ok_inj (s : shell) (j1 j2 : nat) (pid : Z) :
  registry_ok s →
  (j1 < backgroundPidCount s)%nat → (j2 < backgroundPidCount s)%nat →
  backgroundPids s !! j1 = Some pid → backgroundPids s !! j2 = Some pid →
  j1 = j2.
Proof.
  intros (_ & Hnd & _) Hj1 Hj2 H1 H2.
  eapply NoDup_lookup; [exact Hnd | by apply registry_lookup..].
Qed.

(** X5. The [exit] built-in, from a registry of distinct unreaped
    children of which every one that still runs heeds [SIGTERM]: it
    reaches [exit(0)], every registered process has been reaped by then,
    and no other child has been touched. *)
Theorem exit_builtin_reaps_registered (heeds : Z → bool) (s : shell) :
  registry_ok s →
  (∀ pid g, pid ∈ registry s →
            children (os s) !! pid = Some (Proc g Running) →
            heeds pid = true) →
  ∃ k', exit_builtin heeds s = ExitsWith 0 k' ∧
        (∀ pid, pid ∈ registry s → children k' !! pid = None) ∧
        (∀ q, q ∉ registry s → children k' !! q = children (os s) !! q).
Proof.
  intros Hok Hheeds. unfold exit_builtin, terminatePidGroup.
  destruct (terminate_loop_prefix heeds (backgroundPids s)
              (backgroundPidCount s) 0 0 (-5) (os s))
    as (st' & k' & Heq & _ & Hreaped & Hkeep).
  - intros j Hj.
    destruct (registry_ok_entry s j Hok) as (pid & p & Hl & Hr & Hpos & Hp); [lia|].
    exists pid, p. repeat (split; [done|]).
    intros Hrun. destruct p as [g st]. simpl in Hrun. subst st.
    apply (Hheeds pid g); [|done]. by eapply list_elem_of_lookup_2.
  - intros j1 j2 pid Hj1 Hj2. apply (registry_ok_inj s); [done | lia | lia].
  - rewrite Nat.add_0_r in Heq. exists k'. split; [done|]. split.
    + intros pid [j Hj]%list_elem_of_lookup.
      apply registry_lookup_inv in Hj as [Hlt Hl]. apply (Hreaped j); [lia | done].
    + intros q Hq. apply Hkeep. intros j Hj Hl. apply Hq.
      apply (list_elem_of_lookup_2 _ j). apply registry_lookup; [lia | done].
Qed.

Lemma exit_builtin_reaps_registered_witness :
  ∃ k',
    exit_builtin (λ _, true)
      (MkShell false (-5) 0 ([10; 11] ++ replicate 98 0) 2 (-5)
         (Kernel {[10 := Proc 1 Running; 11 := Proc 1 (Zombie 256);
                   12 := Proc 1 Running]} 1) []) = ExitsWith 0 k' ∧
    children k' !! 10 = None ∧ children k' !! 11 = None ∧
    children k' !! 12 = Some (Proc 1 Running).
Proof.
  match goal with
  | |- ∃ k', exit_builtin ?h ?s = _ ∧ _ =>
      destruct (exit_builtin_reaps_registered h s) as (k' & Hk & Hreg & Hkeep)
  end.
  - split; [vm_compute; lia|]. split.
    + apply (bool_decide_unpack _). vm_compute. exact I.
    + constructor; [split; [lia | by eexists] |].
      constructor; [split; [lia | by eexists] | constructor].
  - reflexivity.
  - exists k'. split; [exact Hk|].
    split; [apply Hreg; apply (list_elem_of_lookup_2 _ 0); reflexivity|].
    split; [apply Hreg; apply (list_elem_of_lookup_2 _ 1); reflexivity|].
    rewrite Hkeep; [reflexivity|].
    intros [j Hj]%list_elem_of_lookup.
    destruct j as [|[|j]]; simpl in Hj; inversion Hj.
Defined.



(** ** The registry invariant *)

(** With a positive process ID, [waitpid] returns that ID when it reaps. *)
Lemma waitpid_positive (pid status0 options : Z) (k k' : kernel) (ret status : Z) :
  0 < pid →
  waitpid pid status0 options k = Ok (ret, status, k') →
  (k' = k ∧ (ret = 0 ∨ ret = -1)) ∨
  (ret = pid ∧ k' = Kernel (delete pid (children k)) (own_pgrp k)).
Proof.
  intros Hpos. unfold waitpid, selected. apply Z.ltb_lt in Hpos as ->.
  destruct (children k !! pid) as [[g [|st]]|]; simpl.
  - destruct (Z.land options WNOHANG =? 0); [done|].
    intros [= <- <- <-]. eauto.
  - intros [= <- <- <-]. eauto.
  - intros [= <- <- <-]. eauto.
Qed.

(** An entry that stays after the entry at [i] has been deleted from a
    list without repetition is not the deleted one. *)
Lemma NoDup_delete_other {A : Type} (l : list A) (i : nat) (x y : A) :
  NoDup l → l !! i = Some y → x ∈ delete i l → x ≠ y.
Proof.
  intros Hnd Hi [j Hj]%list_elem_of_lookup ->.
  rewrite list_lookup_delete in Hj. case_decide.
  - assert (j = i) by (eapply NoDup_lookup; done). lia.
  - assert (S j = i) by (eapply NoDup_lookup; done). lia.
Qed.

Lemma sweep_body_registry_ok (idx : nat) (s s' : shell) :
  (idx < backgroundPidCount s)%nat →
  registry_ok s →
  sweep_body idx s = Ok s' →
  registry_ok s'.
Proof.
  intros Hidx Hok Hbody.
  destruct (registry_ok_entry s idx Hok Hidx) as (pid & p & Hl & Hr & Hpos & Hp).
  destruct Hok as (Hle & Hnd & Hall).
  apply sweep_body_effect in Hbody
    as (pid' & ret & status & Hl' & Hwait & _ & _ & _ & Hlen & Hcase); [|done].
  rewrite Hl in Hl'. inversion Hl'; subst pid'.
  apply waitpid_positive in Hwait as [[Hos Hret] | [-> Hos]]; [| | done];
    unfold registry_ok.
  - destruct Hcase as [(_ & Hc & Hreg & _) | (_ & Hc & Hreg & _)];
      rewrite Hos; (split; [lia|]); rewrite Hreg.
    + done.
    + split; [by apply (sublist_NoDup _ (registry s)), sublist_delete
             | by apply Forall_delete].
  - destruct Hcase as [(? & _) | (_ & Hc & Hreg & _)]; [lia|].
    split; [lia|]. rewrite Hreg.
    split; [by apply (sublist_NoDup _ (registry s)), sublist_delete|].
    apply Forall_forall. intros q Hq.
    pose proof (NoDup_delete_other _ _ _ _ Hnd Hr Hq) as Hne.
    apply list_elem_of_delete_inv in Hq.
    rewrite Forall_forall in Hall. destruct (Hall q Hq) as [Hqpos Hchild].
    split; [done|]. rewrite Hos. cbn [children].
    by rewrite lookup_delete_ne.
Qed.

Lemma sweep_from_registry_ok (fuel : nat) :
  ∀ (idx : nat) (s s' : shell),
    registry_ok s → sweep_from fuel idx s = Ok s' → registry_ok s'.
Proof.
  induction fuel as [|fuel IH]; intros idx s s' Hok H; simpl in H.
  { by inversion H; subst. }
  destruct (decide (idx < backgroundPidCount s)%nat) as [Hidx|];
    [|by inversion H; subst].
  apply bind_Ok in H as (s1 & Hbody & H).
  eapply IH; [|exact H]. by eapply sweep_body_registry_ok.
Qed.

(** X7. The sweep keeps the registry well-formed: after it the registry
    still fits the array, still holds no process ID twice, and every
    entry still names a child that has not been reaped. *)
Theorem reap_sweep_registry_ok (s s' : shell) :
  registry_ok s → reap_sweep s = Ok s' → registry_ok s'.
Proof. apply sweep_from_registry_ok. Qed.

Lemma reap_sweep_registry_ok_witness :
  ∃ s',
    reap_sweep
      (MkShell false (-5) (-5) ([10; 11; 12] ++ replicate 97 0) 3 (-5)
         (Kernel {[10 := Proc 1 (Zombie 0); 11 := Proc 1 (Zombie 0);
                   12 := Proc 1 Running]} 1) []) = Ok s' ∧
    registry_ok s'.
Proof.
  match goal with
  | |- ∃ s', reap_sweep ?s = _ ∧ _ =>
      destruct (reap_sweep_returns s) as [s' Hs']; [vm_compute; lia|];
      exists s'; split; [exact Hs'|];
      apply (reap_sweep_registry_ok s s'); [|exact Hs']
  end.
  split; [vm_compute; lia|]. split.
  - apply (bool_decide_unpack _). vm_compute. exact I.
  - repeat (constructor; [split; [lia | by eexists] |]). constructor.
Defined.

Lemma register_background_effect (forkPid : Z) (s : shell) :
  (backgroundPidCount s < length (backgroundPids s))%nat →
  ∃ s', register_background forkPid s = Ok s' ∧
        registry s' = registry s ++ [forkPid] ∧
        os s' = os s ∧
        backgroundPidCount s' = S (backgroundPidCount s) ∧
        length (backgroundPids s') = length (backgroundPids s) ∧
        foregroundOnly s' = foregroundOnly s ∧
        childExitMethod s' = childExitMethod s ∧
        stdout s' = stdout s ++
                    ["PID of new background process: " +:+ decimal forkPid +:+ nl].
Proof.
  intros Hroom. unfold register_background.
  destruct (lookup_lt_is_Some_2 (backgroundPids s) (backgroundPidCount s))
    as [old ->]; [done|].
  eexists. split; [done|]. simpl. rewrite length_insert.
  repeat split; try done. unfold registry. simpl.
  rewrite (take_S_r _ _ forkPid) by (by apply list_lookup_insert_eq).
  by rewrite take_insert_ge by lia.
Qed.

(** X8. A background command in normal mode, with a free slot in the
    array: the parent does not wait, the freshly forked child goes to the
    end of the registry while it keeps running, and the registry stays
    well-formed. *)
Theorem launch_background_registry_ok (forkPid : Z) (s : shell) :
  registry_ok s →
  (backgroundPidCount s < length (backgroundPids s))%nat →
  foregroundOnly s = false →
  0 < forkPid →
  children (os s) !! forkPid = None →
  ∃ s', parent_branch forkPid true (set_os (fork_child forkPid (os s)) s) = Ok s' ∧
        registry s' = registry s ++ [forkPid] ∧
        children (os s') !! forkPid = Some (Proc (own_pgrp (os s)) Running) ∧
        registry_ok s'.
Proof.
  intros (Hle & Hnd & Hall) Hroom Hmode Hpos Hfresh.
  unfold parent_branch, runs_in_foreground. cbn [foregroundOnly set_os].
  rewrite Hmode. cbn [negb orb].
  destruct (register_background_effect forkPid
              (set_os (fork_child forkPid (os s)) s))
    as (s' & Hs' & Hreg & Hos & Hcount & Hlen & _); [done|].
  change (registry (set_os (fork_child forkPid (os s)) s)) with (registry s)
    in Hreg.
  cbn [os set_os backgroundPidCount backgroundPids] in Hos, Hcount, Hlen.
  exists s'. split; [done|]. split; [done|].
  split; [rewrite Hos; apply lookup_insert_eq|].
  unfold registry_ok. rewrite Hreg, Hos, Hcount, Hlen.
  split; [lia|]. split.
  - apply NoDup_app. split; [done|]. split; [|apply NoDup_singleton].
    intros q Hq ->%list_elem_of_singleton.
    rewrite Forall_forall in Hall. destruct (Hall forkPid Hq) as [_ [p Hp]].
    congruence.
  - apply Forall_app. split.
    + eapply Forall_impl; [exact Hall|]. intros q [Hqpos [p Hp]].
      split; [done|]. destruct (decide (q = forkPid)) as [->|Hne]; [congruence|].
      cbn [children fork_child]. rewrite lookup_insert_ne by done. eauto.
    + apply Forall_singleton. split; [done|].
      cbn [children fork_child]. rewrite lookup_insert_eq. eauto.
Qed.

Lemma launch_background_registry_ok_witness :
  ∃ s',
    parent_branch 12 true
      (set_os (fork_child 12 (Kernel {[10 := Proc 1 Running]} 1))
         (MkShell false (-5) (-5) ([10] ++ replicate 99 0) 1 (-5)
            (Kernel {[10 := Proc 1 Running]} 1) [])) = Ok s' ∧
    registry s' = [10; 12] ∧
    children (os s') !! 12 = Some (Proc 1 Running) ∧
    registry_ok s'.
Proof.
  apply (launch_background_registry_ok 12
           (MkShell false (-5) (-5) ([10] ++ replicate 99 0) 1 (-5)
              (Kernel {[10 := Proc 1 Running]} 1) [])).
  - split; [vm_compute; lia|]. split.
    + apply (bool_decide_unpack _). vm_compute. exact I.
    + repeat (constructor; [split; [lia | by eexists] |]). constructor.
  - vm_compute. lia.
  - reflexivity.
  - lia.
  - reflexivity.
Defined.

Lemma wait_foreground_effect (forkPid : Z) (s s' : shell) :
  wait_foreground forkPid s = Ok s' →
  ∃ ret status,
    waitpid forkPid (childExitMethod s) 0 (os s) = Ok (ret, status, os s') ∧
    childExitMethod s' = status ∧
    fgPidForSignal s' = -5 ∧
    foregroundOnly s' = foregroundOnly s ∧
    backgroundPids s' = backgroundPids s ∧
    backgroundPidCount s' = backgroundPidCount s ∧
    bgChildExitMethod s' = bgChildExitMethod s.
Proof.
  unfold wait_foreground. intros H.
  apply bind_Ok in H as ([[ret status] k] & Hw & H). simpl in H.
  exists ret, status.
  destruct (WIFSIGNALED status); inversion H; subst; simpl; done.
Qed.

(** X9. A command run in the foreground leaves no trace but its status:
    once the freshly forked child has terminated, the parent comes back
    from its wait with the children and the registry exactly as they were
    before the [fork], the status of the child in [childExitMethod], and
    [fgPidForSignal] back at -5. *)
Theorem launch_foreground_round_trip
    (forkPid status : Z) (background : bool) (s : shell) :
  runs_in_foreground background s = true →
  0 < forkPid →
  children (os s) !! forkPid = None →
  ∃ s', parent_branch forkPid background
          (set_os (terminate forkPid status (fork_child forkPid (os s))) s)
        = Ok s' ∧
        os s' = os s ∧
        backgroundPids s' = backgroundPids s ∧
        backgroundPidCount s' = backgroundPidCount s ∧
        foregroundOnly s' = foregroundOnly s ∧
        childExitMethod s' = status ∧
        fgPidForSignal s' = -5.
Proof.
  intros Hfg Hpos Hfresh.
  pose (k0 := terminate forkPid status (fork_child forkPid (os s))).
  assert (Hz : children k0 !! forkPid =
               Some (Proc (own_pgrp (os s)) (Zombie status))).
  { apply terminate_lookup. unfold fork_child. cbn [children].
    apply lookup_insert_eq. }
  unfold parent_branch.
  rewrite (Hfg : runs_in_foreground background
                   (set_os (terminate forkPid status
                              (fork_child forkPid (os s))) s) = true).
  destruct (wait_foreground_zombie forkPid (set_os k0 s) _ status Hpos Hz)
    as (s' & Hs' & _).
  exists s'. split; [exact Hs'|].
  apply wait_foreground_effect in Hs'
    as (ret & st & Hw & Hst & Hsig & Hmode & Hpids & Hcount & _).
  cbn [os set_os childExitMethod] in Hw.
  rewrite (waitpid_zombie _ _ _ _ _ status Hpos Hz) in Hw.
  injection Hw as _ Hst' Hos. subst st.
  split; [|done]. rewrite <- Hos.
  destruct (os s) as [ch g] eqn:Hk. unfold k0.
  cbn [children own_pgrp terminate fork_child]. f_equal.
  apply map_eq. intros q. cbn [children] in Hfresh.
  destruct (decide (q = forkPid)) as [->|Hne].
  - by rewrite lookup_delete_eq.
  - rewrite lookup_delete_ne, lookup_alter_ne, lookup_insert_ne by done. done.
Qed.

Lemma launch_foreground_round_trip_witness :
  ∃ s',
    parent_branch 12 true
      (set_os (terminate 12 256
                 (fork_child 12 (Kernel {[10 := Proc 1 Running]} 1)))
         (MkShell true (-5) (-5) ([10] ++ replicate 99 0) 1 (-5)
            (Kernel {[10 := Proc 1 Running]} 1) [])) = Ok s' ∧
    os s' = Kernel {[10 := Proc 1 Running]} 1 ∧
    backgroundPidCount s' = 1%nat ∧
    childExitMethod s' = 256.
Proof.
  destruct (launch_foreground_round_trip 12 256 true
              (MkShell true (-5) (-5) ([10] ++ replicate 99 0) 1 (-5)
                 (Kernel {[10 := Proc 1 Running]} 1) []))
    as (s' & Hs' & Hos & _ & Hcount & _ & Hst & _);
    [reflexivity | lia | reflexivity |].
  exists s'. split; [exact Hs'|]. split; [exact Hos|].
  split; [exact Hcount | exact Hst].
Defined.

(** * Further properties of the parser *)

(** What the loop leaves in the redirection variables and the background
    flag. *)
Lemma parse_rest_operators (parentPid : Z) (n : nat) :
  ∀ (pieces : list string) (idx : nat) (c c' : cmdline),
    (length pieces ≤ n)%nat →
    parse_rest parentPid pieces idx c = Ok c' →
    input c' = or_else (last_target "<" pieces) (input c) ∧
    output c' = or_else (last_target ">" pieces) (output c) ∧
    backgroundFlag c' = backgroundFlag c || background_seen pieces.
Proof.
  induction n as [|n IH]; intros pieces idx c c' Hn H.
  { destruct pieces; [|simpl in Hn; lia]. simpl in H.
    apply finish_Ok in H as (_ & _ & _ & -> & -> & ->).
    by rewrite orb_false_r. }
  destruct pieces as [|piece more].
  { simpl in H. apply finish_Ok in H as (_ & _ & _ & -> & -> & ->).
    by rewrite orb_false_r. }
  simpl in Hn. cbn [parse_rest last_target background_seen] in *.
  destruct (decide (piece = "<")).
  { destruct more as [|path more']; [done|].
    apply bind_Ok in H as (tempStr & [-> _]%strcpy_into_Ok & H).
    apply (IH more' idx) in H as (Hi & Ho & Hb); [|simpl in Hn; lia].
    simpl in Hi, Ho, Hb. rewrite Hi, Ho, Hb.
    destruct (last_target "<" more'), (last_target ">" more');
      repeat case_decide; done. }
  destruct (decide (piece = ">")).
  { destruct more as [|path more']; [done|].
    apply bind_Ok in H as (tempStr & [-> _]%strcpy_into_Ok & H).
    apply (IH more' idx) in H as (Hi & Ho & Hb); [|simpl in Hn; lia].
    simpl in Hi, Ho, Hb. rewrite Hi, Ho, Hb.
    destruct (last_target "<" more'), (last_target ">" more');
      repeat case_decide; done. }
  destruct (decide (piece = "&")).
  { apply (IH more idx) in H as (Hi & Ho & Hb); [|lia].
    simpl in Hi, Ho, Hb. rewrite Hi, Ho, Hb. by rewrite orb_true_r. }
  apply bind_Ok in H as (arg & _ & H).
  apply bind_Ok in H as (a & _ & H).
  apply (IH more (S idx)) in H as (Hi & Ho & Hb); [|lia]. done.
Qed.

(** X10. What a returning call of the parser leaves in the redirection
    variables and the background flag: the path after the last "<" the
    scan meets as an operator, stored as typed, or else what [*input]
    held before the call; the same for ">" and [*output]; and the flag is
    set as soon as the scan meets "&" anywhere after the command name,
    and otherwise left as it was. *)
Theorem parseUserCmd_operators
    (parentPid : Z) (userline : string) (c0 c : cmdline) :
  parseUserCmd parentPid userline c0 = Ok c →
  input c = or_else (last_target "<" (tail (tokens userline))) (input c0) ∧
  output c = or_else (last_target ">" (tail (tokens userline))) (output c0) ∧
  backgroundFlag c =
    backgroundFlag c0 || background_seen (tail (tokens userline)).
Proof.
  unfold parseUserCmd. destruct (tokens userline) as [|name more]; intros H.
  - apply (parse_rest_operators parentPid 0 [] 0) in H; [done | done].
  - apply bind_Ok in H as (a & _ & H).
    apply (parse_rest_operators parentPid (length more) more 1) in H; done.
Qed.

Lemma parseUserCmd_operators_witness :
  ∃ c, parseUserCmd 4242 "sort < $$ & -r > a > b" initial_cmdline = Ok c ∧
       input c = Some "$$" ∧ output c = Some "b" ∧ backgroundFlag c = true ∧
       take (argCount c) (args c) = [Some "sort"; Some "-r"].
Proof.
  destruct (parseUserCmd_returns 4242 "sort < $$ & -r > a > b" initial_cmdline
              allocated_initial) as [c Hc].
  { by_evaluation. }
  exists c. split; [exact Hc|].
  destruct (parseUserCmd_operators _ _ _ _ Hc) as (Hi & Ho & Hb).
  split; [exact Hi|]. split; [exact Ho|]. split; [exact Hb|].
  by apply parseUserCmd_Ok in Hc as (_ & _ & Htake & _).
Defined.

Lemma strcpy_arg_Ok_length (a a' : list (option string)) (idx : nat) (src : string) :
  strcpy_arg a idx src = Ok a' → (String.length src < MAX_LINE_LENGTH)%nat.
Proof.
  unfold strcpy_arg. destruct (a !! idx) as [[old|]|]; [|done..].
  intros H. by apply bind_Ok in H as (copy & [_ Hlen]%strcpy_into_Ok & _).
Qed.

Lemma expand_fits (parentPid : Z) (piece : string) :
  (String.length (expanded parentPid piece) < MAX_LINE_LENGTH)%nat →
  expand parentPid piece = Ok (expanded parentPid piece).
Proof.
  unfold expand, expanded. destruct (pid_marker piece); [|done].
  apply strcpy_into_fits.
Qed.

(** The loop returns only if it had room for everything it stored. *)
Lemma parse_rest_Ok_fits (parentPid : Z) (n : nat) :
  ∀ (pieces : list string) (idx : nat) (c c' : cmdline),
    (length pieces ≤ n)%nat →
    parse_rest parentPid pieces idx c = Ok c' →
    targets_present pieces = true ∧
    Forall (λ arg, (String.length arg < MAX_LINE_LENGTH)%nat)
           (expanded parentPid <$> ordinary pieces) ∧
    Forall (λ path, (String.length path < REDIRECT_PATH_SIZE)%nat)
           (redirect_paths pieces).
Proof.
  induction n as [|n IH]; intros pieces idx c c' Hn H.
  { destruct pieces; [done | simpl in Hn; lia]. }
  destruct pieces as [|piece more]; [done|].
  simpl in Hn.
  cbn [parse_rest targets_present ordinary redirect_paths] in *.
  destruct (decide (piece = "<")).
  { destruct more as [|path more']; [done|].
    apply bind_Ok in H as (tempStr & [-> Hlen]%strcpy_into_Ok & H).
    apply (IH more' idx) in H as (Ht & Ha & Hp); [|simpl in Hn; lia].
    split; [done|]. split; [done|]. by constructor. }
  destruct (decide (piece = ">")).
  { destruct more as [|path more']; [done|].
    apply bind_Ok in H as (tempStr & [-> Hlen]%strcpy_into_Ok & H).
    apply (IH more' idx) in H as (Ht & Ha & Hp); [|simpl in Hn; lia].
    split; [done|]. split; [done|]. by constructor. }
  destruct (decide (piece = "&")).
  { apply (IH more idx) in H; [done | lia]. }
  apply bind_Ok in H as (arg & ->%expand_Ok & H).
  apply bind_Ok in H as (a & Hlen%strcpy_arg_Ok_length & H).
  apply (IH more (S idx)) in H as (Ht & Ha & Hp); [|lia].
  split; [done|]. split; [|done]. rewrite fmap_cons. by constructor.
Qed.

(** And it does return when it has room. *)
Lemma parse_rest_fits_returns (parentPid : Z) (n : nat) :
  ∀ (pieces : list string) (idx : nat) (c : cmdline),
    (length pieces ≤ n)%nat →
    targets_present pieces = true →
    Forall (λ arg, (String.length arg < MAX_LINE_LENGTH)%nat)
           (expanded parentPid <$> ordinary pieces) →
    Forall (λ path, (String.length path < REDIRECT_PATH_SIZE)%nat)
           (redirect_paths pieces) →
    (idx + length (ordinary pieces) < length (args c))%nat →
    (∀ i, (idx ≤ i < length (args c))%nat → ∃ b, args c !! i = Some (Some b)) →
    ∃ c', parse_rest parentPid pieces idx c = Ok c'.
Proof.
  induction n as [|n IH]; intros pieces idx c Hn Ht Hargs Hpaths Hidx Halloc.
  { destruct pieces; [|simpl in Hn; lia]. simpl in *.
    unfold finish. destruct (Halloc idx) as [b ->]; [lia|]. eauto. }
  destruct pieces as [|piece more].
  { simpl in *. unfold finish. destruct (Halloc idx) as [b ->]; [lia|]. eauto. }
  simpl in Hn.
  cbn [parse_rest targets_present ordinary redirect_paths] in *.
  destruct (decide (piece = "<")).
  { destruct more as [|path more']; [done|].
    apply Forall_cons in Hpaths as [Hp Hpaths].
    rewrite strcpy_into_fits by done. simpl.
    apply IH; [simpl in Hn; lia | done..]. }
  destruct (decide (piece = ">")).
  { destruct more as [|path more']; [done|].
    apply Forall_cons in Hpaths as [Hp Hpaths].
    rewrite strcpy_into_fits by done. simpl.
    apply IH; [simpl in Hn; lia | done..]. }
  destruct (decide (piece = "&")).
  { apply IH; [lia | done..]. }
  rewrite fmap_cons in Hargs. apply Forall_cons in Hargs as [Harg Hargs].
  simpl in Hidx.
  rewrite expand_fits by done. simpl. unfold strcpy_arg.
  destruct (Halloc idx) as [b ->]; [lia|].
  rewrite strcpy_into_fits by done. simpl.
  apply IH; simpl; [lia | done | done | done | rewrite length_insert; lia |].
  intros i Hi. rewrite length_insert in Hi.
  rewrite list_lookup_insert_ne by lia. apply Halloc. lia.
Qed.

Lemma parseUserCmd_fits_returns
    (parentPid : Z) (userline : string) (c0 : cmdline) :
  allocated (args c0) →
  fits parentPid (tokens userline) →
  ∃ c, parseUserCmd parentPid userline c0 = Ok c.
Proof.
  intros Halloc (Hlen & Ht & Hargs & Hpaths). pose proof Halloc as [Hcap Hall].
  unfold parseUserCmd, argv in *.
  destruct (tokens userline) as [|name more].
  - apply (parse_rest_fits_returns parentPid 0 [] 0); simpl; try done.
    + rewrite Hcap. unfold MAX_LINE_ARGS. lia.
    + intros i Hi. apply allocated_lookup; [done | lia].
  - simpl in Hlen, Ht, Hpaths. rewrite length_fmap in Hlen.
    apply Forall_cons in Hargs as [Hname Hargs].
    unfold strcpy_arg.
    destruct (allocated_lookup (args c0) 0) as [b ->];
      [done | rewrite Hcap; unfold MAX_LINE_ARGS; lia |].
    rewrite strcpy_into_fits by done. simpl.
    apply (parse_rest_fits_returns parentPid (length more) more 1);
      simpl; try done.
    + rewrite length_insert, Hcap. lia.
    + intros i Hi. rewrite length_insert in Hi.
      rewrite list_lookup_insert_ne by lia.
      apply allocated_lookup; [done | lia].
Qed.

(** X11. The lines the parser returns on are exactly the lines it has
    room for: fewer than 512 arguments, a path after every redirection
    operator, every argument (after expansion) shorter than 2048 bytes
    and every redirection path shorter than 512 bytes.  On every other
    line the call ends in undefined behaviour. *)
Theorem parseUserCmd_returns_iff
    (parentPid : Z) (userline : string) (c0 : cmdline) :
  allocated (args c0) →
  (∃ c, parseUserCmd parentPid userline c0 = Ok c) ↔
  fits parentPid (tokens userline).
Proof.
  intros Halloc. split; [|by apply parseUserCmd_fits_returns].
  pose proof Halloc as [Hcap Hall]. unfold fits.
  intros [c Hc].
  pose proof (parseUserCmd_Ok _ _ _ _ Hc) as (Hlen & Hcount & _ & Hnull & _).
  split. { rewrite <- Hcount, <- Hcap, <- Hlen. by eapply lookup_lt_Some. }
  unfold parseUserCmd, argv in *.
  destruct (tokens userline) as [|name more]; [done|].
  apply bind_Ok in Hc as (a & Hname%strcpy_arg_Ok_length & Hc).
  apply (parse_rest_Ok_fits parentPid (length more)) in Hc
    as (Ht & Ha & Hp); [|done].
  split; [done|]. split; [by constructor | done].
Qed.

Lemma parseUserCmd_returns_iff_witness :
  (∃ c, parseUserCmd 4242 "ls -l > out" initial_cmdline = Ok c) ∧
  ¬ fits 4242 (tokens "ls -l >").
Proof.
  split.
  - apply (parseUserCmd_returns_iff 4242 "ls -l > out" initial_cmdline
             allocated_initial).
    by_evaluation.
  - intros Hfits.
    apply (parseUserCmd_returns_iff 4242 "ls -l >" initial_cmdline
             allocated_initial) in Hfits as [c Hc].
    vm_compute in Hc. discriminate Hc.
Defined.

(** On plain tokens the scans of the parser find nothing. *)
Lemma plain_tokens (parentPid : Z) (more : list string) :
  Forall plain more →
  ordinary more = more ∧
  expanded parentPid <$> more = more ∧
  targets_present more = true ∧
  redirect_paths more = [] ∧
  (∀ op, last_target op more = None) ∧
  background_seen more = false.
Proof.
  induction 1 as [|piece more (Hlt & Hgt & Hamp & Hmark) _ IH]; [done|].
  destruct IH as (Ho & He & Ht & Hp & Hl & Hb).
  assert (Hord : ordinary (piece :: more) = piece :: more).
  { cbn [ordinary]. rewrite !decide_False by done. by rewrite Ho. }
  split; [done|]. split.
  { rewrite fmap_cons, He. unfold expanded. by rewrite Hmark. }
  split. { cbn [targets_present]. by rewrite !decide_False by done. }
  split. { cbn [redirect_paths]. by rewrite !decide_False by done. }
  split. { intros op. cbn [last_target]. by rewrite !decide_False by done. }
  cbn [background_seen]. by rewrite !decide_False by done.
Qed.

(** X12. A line without special tokens (no "<", ">" or "&" after the
    command name, and no "$$" in an argument), with fewer than 512 tokens
    of fewer than 2048 bytes each: the parser returns, the arguments are
    the tokens of the line in order, and the redirection variables and
    the background flag are as they were before the call. *)
Theorem parseUserCmd_plain_line
    (parentPid : Z) (userline : string) (c0 : cmdline) :
  allocated (args c0) →
  Forall plain (tail (tokens userline)) →
  (length (tokens userline) < MAX_LINE_ARGS)%nat →
  Forall (λ t, (String.length t < MAX_LINE_LENGTH)%nat) (tokens userline) →
  ∃ c, parseUserCmd parentPid userline c0 = Ok c ∧
       argCount c = length (tokens userline) ∧
       take (argCount c) (args c) = Some <$> tokens userline ∧
       input c = input c0 ∧ output c = output c0 ∧
       backgroundFlag c = backgroundFlag c0.
Proof.
  intros Halloc Hplain Hcount Hlen.
  destruct (plain_tokens parentPid _ Hplain) as (Ho & He & Ht & Hp & Hl & Hb).
  assert (Hargv : argv parentPid (tokens userline) = tokens userline).
  { unfold argv. destruct (tokens userline) as [|name more]; [done|].
    simpl in *. by rewrite Ho, He. }
  destruct (parseUserCmd_fits_returns parentPid userline c0 Halloc) as [c Hc].
  { unfold fits. rewrite Hargv, Hp. done. }
  exists c. split; [done|].
  pose proof (parseUserCmd_Ok _ _ _ _ Hc) as (_ & Hn & Htake & _).
  rewrite Hargv in Hn, Htake. split; [done|]. split; [done|].
  clear Hb.
  unfold parseUserCmd in Hc. destruct (tokens userline) as [|name more].
  - apply (parse_rest_operators parentPid 0 [] 0) in Hc as (-> & -> & ->); [|done].
    by rewrite orb_false_r.
  - apply bind_Ok in Hc as (a & _ & Hc). simpl in Hl.
    destruct (plain_tokens parentPid _ Hplain) as (_ & _ & _ & _ & _ & Hb).
    apply (parse_rest_operators parentPid (length more) more 1) in Hc as (-> & -> & ->); [|done].
    simpl in Hb. rewrite !Hl, Hb. by rewrite orb_false_r.
Qed.

Lemma parseUserCmd_plain_line_witness :
  ∃ c, parseUserCmd 4242 "  grep  -n   main smallsh.c " initial_cmdline = Ok c ∧
       take (argCount c) (args c) =
         [Some "grep"; Some "-n"; Some "main"; Some "smallsh.c"] ∧
       input c = None ∧ output c = None ∧ backgroundFlag c = false.
Proof.
  destruct (parseUserCmd_plain_line 4242 "  grep  -n   main smallsh.c "
              initial_cmdline allocated_initial)
    as (c & Hc & _ & Htake & Hi & Ho & Hb).
  - by_evaluation.
  - vm_compute. lia.
  - by_evaluation.
  - exists c. split; [exact Hc|]. split; [exact Htake|].
    split; [exact Hi|]. split; [exact Ho | exact Hb].
Defined.

(** X13. Nothing of one command leaks into the next: after the reset at
    the end of the iteration, a returning call of the parser on the next
    line yields the arguments, the redirections and the background flag
    of that line alone. *)
Theorem parseUserCmd_after_reset
    (parentPid : Z) (line1 line2 : string) (c0 c1 c1' c2 : cmdline) :
  allocated (args c0) →
  parseUserCmd parentPid line1 c0 = Ok c1 →
  reset_cmdline c1 = Ok c1' →
  parseUserCmd parentPid line2 c1' = Ok c2 →
  take (argCount c2) (args c2) = Some <$> argv parentPid (tokens line2) ∧
  input c2 = last_target "<" (tail (tokens line2)) ∧
  output c2 = last_target ">" (tail (tokens line2)) ∧
  backgroundFlag c2 = background_seen (tail (tokens line2)).
Proof.
  intros Halloc H1 Hreset H2.
  destruct (reset_cmdline_allocated _ _ _ _ Halloc H1)
    as (c & Hc & _ & _ & Hi & Ho & Hb).
  rewrite Hreset in Hc. inversion Hc; subst c.
  pose proof (parseUserCmd_Ok _ _ _ _ H2) as (_ & _ & Htake & _).
  split; [done|].
  unfold parseUserCmd in H2. destruct (tokens line2) as [|name more].
  - apply (parse_rest_operators parentPid 0 [] 0) in H2 as (-> & -> & ->); [|done].
    by rewrite Hi, Ho, Hb.
  - apply bind_Ok in H2 as (a & _ & H2).
    apply (parse_rest_operators parentPid (length more) more 1) in H2 as (-> & -> & ->); [|done].
    simpl. rewrite Hi, Ho, Hb. simpl.
    by destruct (last_target "<" more), (last_target ">" more).
Qed.

Lemma parseUserCmd_after_reset_witness :
  ∃ c1 c1' c2,
    parseUserCmd 4242 "sleep 5 > out &" initial_cmdline = Ok c1 ∧
    reset_cmdline c1 = Ok c1' ∧
    parseUserCmd 4242 "ls" c1' = Ok c2 ∧
    take (argCount c2) (args c2) = [Some "ls"] ∧
    input c2 = None ∧ output c2 = None ∧ backgroundFlag c2 = false.
Proof.
  destruct (parseUserCmd_returns 4242 "sleep 5 > out &" initial_cmdline
              allocated_initial) as [c1 H1].
  { by_evaluation. }
  destruct (reset_cmdline_allocated _ _ _ _ allocated_initial H1)
    as (c1' & Hreset & Halloc & _).
  destruct (parseUserCmd_returns 4242 "ls" c1' Halloc) as [c2 H2].
  { by_evaluation. }
  exists c1, c1', c2. split; [exact H1|]. split; [exact Hreset|].
  split; [exact H2|].
  exact (parseUserCmd_after_reset 4242 _ _ _ _ _ _
           allocated_initial H1 Hreset H2).
Defined.

(** ** The expansion of the process ID *)

Lemma pid_marker_uint (d : Decimal.uint) :
  pid_marker (NilEmpty.string_of_uint d) = None.
Proof. induction d; simpl; [done | by rewrite IHd ..]. Qed.

(** The decimal form of a number holds no marker. *)
Lemma pid_marker_decimal (z : Z) : pid_marker (decimal z) = None.
Proof.
  unfold decimal, NilZero.string_of_int.
  destruct (Z.to_int z) as [d|d]; unfold NilZero.string_of_uint.
  - destruct d; try apply pid_marker_uint. done.
  - cbn [pid_marker]. cbn [Ascii.eqb Bool.eqb dollar andb fmap option_fmap option_map].
    destruct d; try (by rewrite pid_marker_uint). done.
Qed.

(** The part before the first marker, followed by a string without one,
    is a string without one. *)
Lemma pid_marker_app_None (piece : string) :
  ∀ (cut s : string),
    pid_marker piece = Some cut →
    pid_marker s = None →
    pid_marker (cut +:+ s) = None.
Proof.
  induction piece as [|c rest IH]; intros cut s H Hs; [done|].
  cbn [pid_marker] in H.
  destruct (Ascii.eqb c dollar
            && match rest with
               | String d _ => Ascii.eqb d dollar
               | EmptyString => false
               end) eqn:Hcond.
  - by inversion H; subst.
  - destruct (pid_marker rest) as [cut'|] eqn:Hrest; [|done].
    inversion H; subst cut. clear H.
    specialize (IH cut' s eq_refl Hs).
    change (String c cut' +:+ s) with (String c (cut' +:+ s)).
    cbn [pid_marker]. rewrite IH.
    destruct (Ascii.eqb c dollar) eqn:Hc; [|done].
    simpl in Hcond.
    destruct (pid_marker_Some _ _ Hrest) as [r Hr]. subst rest.
    destruct cut' as [|d cut''].
    + change (EmptyString +:+ "$$" +:+ r) with (String "$" (String "$" r)) in Hcond.
      simpl in Hcond. done.
    + change (String d cut'' +:+ "$$" +:+ r)
        with (String d (cut'' +:+ "$$" +:+ r)) in Hcond.
      change (String d cut'' +:+ s) with (String d (cut'' +:+ s)).
      cbn iota in Hcond. cbn iota. by rewrite Hcond.
Qed.

(** X14. The argument the parser stores never holds the marker "$$": the
    scan stops at the first marker and the rest of the token, with every
    later marker, is cut off; expanding a stored argument again changes
    nothing. *)
Theorem expanded_no_marker (parentPid : Z) (piece : string) :
  pid_marker (expanded parentPid piece) = None ∧
  expanded parentPid (expanded parentPid piece) = expanded parentPid piece.
Proof.
  assert (H : pid_marker (expanded parentPid piece) = None).
  { unfold expanded. destruct (pid_marker piece) as [cut|] eqn:Hm; [|done].
    eapply pid_marker_app_None; [exact Hm | apply pid_marker_decimal]. }
  split; [done|]. unfold expanded at 1. by rewrite H.
Qed.

(** * Further properties of the tokens *)

Lemma skip_spaces_length (s : string) :
  (String.length (skip_spaces s) ≤ String.length s)%nat.
Proof.
  induction s as [|c rest IH]; simpl; [done|].
  destruct (Ascii.eqb c space); simpl; lia.
Qed.

Lemma span_token_length (s tok tl : string) :
  span_token s = (tok, tl) →
  (String.length tok + String.length tl = String.length s)%nat.
Proof.
  revert tok tl. induction s as [|c rest IH]; intros tok tl H; simpl in H.
  - by inversion H.
  - destruct (Ascii.eqb c space); [by inversion H|].
    destruct (span_token rest) as [tok' tl'].
    inversion H; subst. specialize (IH _ _ eq_refl). simpl. lia.
Qed.

(** Every call of [strtok_r] that returns a token leaves a shorter buffer
    for the next call. *)
Lemma strtok_r_shorter (s tok saveptr : string) :
  strtok_r s = Some (tok, saveptr) →
  (String.length saveptr < String.length s)%nat.
Proof.
  unfold strtok_r. pose proof (skip_spaces_length s) as Hskip.
  destruct (skip_spaces s) as [|c rest] eqn:Hs; [done|].
  cbn [span_token].
  destruct (Ascii.eqb c space) eqn:Hc.
  - intros [= <- <-]. simpl in *. lia.
  - destruct (span_token rest) as [tok' tl] eqn:Hspan.
    apply span_token_length in Hspan. simpl in Hskip.
    destruct tl; intros [= <- <-]; simpl in *; lia.
Qed.

Lemma strtok_loop_enough (fuel : nat) :
  ∀ s : string, (String.length s < fuel)%nat → strtok_loop fuel s = tokens s.
Proof.
  induction fuel as [|fuel IH]; intros s Hlen; [lia|].
  rewrite tokens_strtok_r. cbn [strtok_loop].
  destruct (strtok_r s) as [[tok saveptr]|] eqn:Hs; [|done].
  apply strtok_r_shorter in Hs. rewrite IH by lia. done.
Qed.

Lemma fields_no_space (s : string) :
  Forall (λ f, has_space f = false) (fields s).
Proof.
  induction s as [|c rest IH]; simpl; [by repeat constructor|].
  destruct (Ascii.eqb c space) eqn:Hc; [by constructor|].
  destruct (fields rest) as [|f fs]; [by repeat constructor; simpl; rewrite Hc|].
  apply Forall_cons in IH as [Hf Hfs].
  constructor; [simpl; by rewrite Hc, Hf | done].
Qed.

(** X15. The pieces [strtok_r] hands to the parser, call after call
    until it returns [NULL], are the tokens of the line: the non-empty
    stretches between spaces, from left to right.  (As many calls as the
    line has bytes, and one more, are enough.) *)
Theorem strtok_loop_tokens (userline : string) :
  strtok_loop (S (String.length userline)) userline = tokens userline ∧
  Forall is_token (tokens userline).
Proof.
  split; [apply strtok_loop_enough; lia|].
  unfold tokens. apply Forall_forall. intros t Ht.
  apply list_elem_of_In, List.filter_In in Ht as [Hin Hne].
  split; [by destruct t|].
  pose proof (fields_no_space userline) as Hall.
  rewrite Forall_forall in Hall. apply Hall. by apply list_elem_of_In.
Qed.

Lemma fields_not_nil (s : string) : fields s ≠ [].
Proof.
  destruct s as [|c rest]; simpl; [done|].
  destruct (Ascii.eqb c space); [done|]. by destruct (fields rest).
Qed.

Lemma fields_app_space (a b : string) :
  fields (a +:+ " " +:+ b) = fields a ++ fields b.
Proof.
  induction a as [|c a IH].
  - done.
  - change (String c a +:+ " " +:+ b) with (String c (a +:+ " " +:+ b)).
    cbn [fields]. rewrite IH.
    destruct (Ascii.eqb c space); [done|].
    pose proof (fields_not_nil a). by destruct (fields a).
Qed.

Lemma tokens_app_space (a b : string) :
  tokens (a +:+ " " +:+ b) = tokens a ++ tokens b.
Proof. unfold tokens. by rewrite fields_app_space, List.filter_app. Qed.

Lemma fields_token (t : string) : has_space t = false → fields t = [t].
Proof.
  induction t as [|c t IH]; simpl; [done|].
  intros [Hc Ht]%orb_false_iff. rewrite Hc, IH by done. done.
Qed.

Lemma tokens_token (t : string) : is_token t → tokens t = [t].
Proof.
  intros [Hne Hsp]. unfold tokens. rewrite fields_token by done.
  simpl. by destruct t.
Qed.

(** X16. Spaces only separate: the tokens of two strings joined by a
    space are the tokens of the first followed by the tokens of the
    second (so leading, trailing and repeated spaces add nothing), and
    tokens joined by single spaces are read back as they were. *)
Theorem tokens_concat (ts : list string) :
  (∀ a b, tokens (a +:+ " " +:+ b) = tokens a ++ tokens b) ∧
  (Forall is_token ts → tokens (String.concat " " ts) = ts).
Proof.
  split; [apply tokens_app_space|].
  induction 1 as [|t ts Ht Hts IH]; [done|].
  destruct ts as [|t' ts].
  - simpl. by apply tokens_token.
  - change (String.concat " " (t :: t' :: ts))
      with (t +:+ " " +:+ String.concat " " (t' :: ts)).
    rewrite tokens_app_space, IH, tokens_token by done. done.
Qed.

Lemma tokens_concat_witness :
  tokens ("  ls " +:+ " " +:+ "-l  ") = ["ls"; "-l"] ∧
  tokens (String.concat " " ["cat"; "<"; "a.txt"]) = ["cat"; "<"; "a.txt"].
Proof.
  destruct (tokens_concat ["cat"; "<"; "a.txt"]) as [Happ Hjoin].
  split; [rewrite Happ; reflexivity|].
  apply Hjoin. by_evaluation.
Defined.

(** * Further properties of the status report *)

Lemma WTERMSIG_mod (status : Z) : WTERMSIG status = status mod 128.
Proof.
  unfold WTERMSIG. change 127 with (Z.ones 7). by rewrite Z.land_ones by lia.
Qed.

Lemma exited_status_decode (code : Z) :
  WIFEXITED (exited_status code) = true ∧
  WEXITSTATUS (exited_status code) = code mod 256.
Proof.
  unfold WIFEXITED, WEXITSTATUS, exited_status.
  pose proof (Z.mod_pos_bound code 256 ltac:(lia)) as Hm.
  set (m := code mod 256) in *. split.
  - apply Z.eqb_eq. rewrite WTERMSIG_mod.
    replace (m * 256) with ((m * 2) * 128) by lia. apply Z.mod_mul. lia.
  - change 65280 with (Z.shiftl 255 8). change 256 with (2 ^ 8).
    rewrite <- Z.shiftl_mul_pow2 by lia.
    rewrite <- Z.shiftl_land. rewrite Z.shiftr_shiftl_l by lia.
    change (8 - 8) with 0. rewrite Z.shiftl_0_r.
    change 255 with (Z.ones 8). rewrite Z.land_ones by lia.
    apply Z.mod_small. lia.
Qed.

Lemma signaled_status_decode (signal : Z) (core : bool) :
  0 ≤ signal < 128 → WTERMSIG (signaled_status signal core) = signal.
Proof.
  intros Hs. rewrite WTERMSIG_mod. unfold signaled_status. destruct core.
  - replace (signal + 128) with (signal + 1 * 128) by lia.
    rewrite Z.mod_add by lia. apply Z.mod_small. lia.
  - rewrite Z.add_0_r. apply Z.mod_small. lia.
Qed.

(** X17. The report reads back what the kernel encoded.  For a child that
    called [exit(code)] it prints the low eight bits of the code (254 for
    the [exit(-2)] after a failed [fork]); for a child terminated by a
    signal from 1 to 126 other than 123, core dump or not, it prints the
    number of the signal. *)
Theorem reportExitStatus_decodes (n : Z) :
  reportExitStatus (exited_status n) =
    ["Exit Status: " +:+ decimal (n mod 256) +:+ nl] ∧
  (∀ core, 1 ≤ n ≤ 126 → n ≠ 123 →
     reportExitStatus (signaled_status n core) =
       ["Terminating Signal: " +:+ decimal n +:+ nl]).
Proof.
  split.
  - destruct (exited_status_decode n) as [Hex Hcode].
    by rewrite reportExitStatus_exited, Hcode.
  - intros core Hn Hne.
    pose proof (signaled_status_decode n core ltac:(lia)) as Hsig.
    rewrite reportExitStatus_signaled; rewrite ?Hsig; [done | | done].
    apply WIFSIGNALED_iff. rewrite Hsig. lia.
Qed.

Lemma reportExitStatus_decodes_witness :
  reportExitStatus (exited_status (-2)) = ["Exit Status: 254" +:+ nl] ∧
  reportExitStatus (signaled_status 15 false) =
    ["Terminating Signal: 15" +:+ nl] ∧
  reportExitStatus (signaled_status 11 true) =
    ["Terminating Signal: 11" +:+ nl].
Proof.
  destruct (reportExitStatus_decodes (-2)) as [Hexit _].
  destruct (reportExitStatus_decodes 15) as [_ Hterm].
  destruct (reportExitStatus_decodes 11) as [_ Hsegv].
  split; [exact Hexit|].
  split; [apply Hterm; lia | apply Hsegv; lia].
Defined.

Lemma land_low16 (status mask : Z) :
  Z.land 65535 mask = mask →
  Z.land (status mod 65536) mask = Z.land status mask.
Proof.
  intros Hmask. change 65536 with (2 ^ 16).
  rewrite <- Z.land_ones by lia. change (Z.ones 16) with 65535.
  by rewrite <- Z.land_assoc, Hmask.
Qed.

(** X18. The report looks at the low sixteen bits of the status and at
    nothing else, and it prints one line or none. *)
Theorem reportExitStatus_low_bits (status : Z) :
  reportExitStatus (status mod 65536) = reportExitStatus status ∧
  (length (reportExitStatus status) ≤ 1)%nat.
Proof.
  split.
  - unfold reportExitStatus, WIFEXITED, WIFSIGNALED, WEXITSTATUS, WTERMSIG.
    by rewrite !land_low16 by done.
  - unfold reportExitStatus.
    destruct (WIFEXITED status); [simpl; lia|].
    destruct (WIFSIGNALED status); [|simpl; lia].
    destruct (negb (WTERMSIG status =? 123)); simpl; lia.
Qed.

(** * Further properties of the child *)

Lemma open_onto_cases (fs : filesystem) (path : string) (flags : oflag) :
  open_onto fs path flags = Ok (Opened path flags) ∨
  open_onto fs path flags = Exited 1.
Proof. unfold open_onto. destruct (fs path flags); eauto. Qed.

(** X19. How the child branch ends and what it sets up.  It ends with a
    set-up or with [exit(1)], nothing else.  In every set-up the
    mode-toggle signal is ignored; the interrupt signal has its default
    disposition exactly for a command without the background flag; a
    redirection given on the line always wins over the null device,
    which is used only for the background flag without a redirection;
    and a descriptor is inherited only by a command without the flag. *)
Theorem child_branch_outcome
    (fs : filesystem) (inputfile outputfile : option string)
    (background : bool) (s : shell) :
  (child_branch fs inputfile outputfile background s = Exited 1 ∨
   ∃ c, child_branch fs inputfile outputfile background s = Ok c) ∧
  (∀ c, child_branch fs inputfile outputfile background s = Ok c →
     on_SIGTSTP c = SigIgnore ∧
     on_SIGINT c = (if background then SigIgnore else SigDefault) ∧
     fd_stdin c =
       match inputfile with
       | Some path => Opened path O_RDONLY
       | None => if background then Opened "/dev/null" O_RDONLY else Inherited
       end ∧
     fd_stdout c =
       match outputfile with
       | Some path => Opened path O_WRONLY_CREAT_TRUNC
       | None => if background then Opened "/dev/null" O_WRONLY else Inherited
       end).
Proof.
  unfold child_branch, redirectStdIO, forked_child. cbn [fd_stdin fd_stdout].
  split.
  - destruct inputfile as [pin|], outputfile as [pout|], background;
      repeat match goal with
             | |- context [open_onto fs ?p ?f] =>
                 destruct (open_onto_cases fs p f) as [-> | ->]
             end; simpl; eauto.
  - intros c.
    destruct inputfile as [pin|], outputfile as [pout|], background;
      repeat match goal with
             | |- context [open_onto fs ?p ?f] =>
                 destruct (open_onto_cases fs p f) as [-> | ->]
             end; simpl; try done; by intros [= <-].
Qed.

Lemma child_branch_outcome_witness :
  ∃ c, child_branch (λ _ _, true) None (Some "out.txt") true
         (initial_shell (Kernel ∅ 1)) = Ok c ∧
       fd_stdin c = Opened "/dev/null" O_RDONLY ∧
       fd_stdout c = Opened "out.txt" O_WRONLY_CREAT_TRUNC ∧
       on_SIGINT c = SigIgnore ∧ on_SIGTSTP c = SigIgnore.
Proof.
  destruct (child_branch_outcome (λ _ _, true) None (Some "out.txt") true
              (initial_shell (Kernel ∅ 1))) as [_ Hsetup].
  eexists. split; [reflexivity|].
  destruct (Hsetup _ eq_refl) as (Htstp & Hint & Hin & Hout).
  split; [exact Hin|]. split; [exact Hout|]. split; [exact Hint | exact Htstp].
Defined.

Lemma argv_upto_null_terminated (l : list string) (rest : list (option string)) :
  argv_upto_null ((Some <$> l) ++ None :: rest) = Ok l.
Proof.
  induction l as [|x l IH]; [done|].
  rewrite fmap_cons. cbn [app argv_upto_null]. by rewrite IH.
Qed.

(** The argument vector [execvp] reads from the array the parser has
    filled. *)
Lemma argv_upto_null_parsed (parentPid : Z) (userline : string) (c0 c : cmdline) :
  parseUserCmd parentPid userline c0 = Ok c →
  argv_upto_null (args c) = Ok (argv parentPid (tokens userline)).
Proof.
  intros (_ & _ & Htake & Hnull & _)%parseUserCmd_Ok.
  rewrite <- (take_drop_middle (args c) (argCount c) None) by done.
  rewrite Htake. apply argv_upto_null_terminated.
Qed.

(** X20. From the line to the new program.  When the parser returns on a
    line with a first token and the child gets through its set-up: if
    [execvp] can run the first token, the child goes on as that program,
    named as typed, with the parsed arguments as its argument vector and
    the set-up of the child branch; if not, the child ends with
    [exit(1)].  It never comes back into the loop of the shell. *)
Theorem child_process_of_line
    (fs : filesystem) (can_exec : string → bool) (parentPid : Z)
    (userline name : string) (more : list string)
    (c0 c : cmdline) (s : shell) (setup : child_setup) :
  parseUserCmd parentPid userline c0 = Ok c →
  tokens userline = name :: more →
  child_branch fs (input c) (output c) (backgroundFlag c) s = Ok setup →
  child_process fs can_exec c s =
    if can_exec name
    then Ok (Image name (name :: (expanded parentPid <$> ordinary more)) setup)
    else Exited 1.
Proof.
  intros Hc Htok Hsetup. unfold child_process. rewrite Hsetup.
  cbn [mbind result_bind]. unfold execute.
  rewrite (decide_action_name _ _ _ _ _ _ Htok Hc).
  rewrite (argv_upto_null_parsed _ _ _ _ Hc), Htok. simpl. done.
Qed.

Lemma child_process_of_line_witness :
  ∃ c setup,
    parseUserCmd 4242 "echo $$ > out.txt &" initial_cmdline = Ok c ∧
    child_process (λ _ _, true) (λ name, bool_decide (name = "echo")) c
      (initial_shell (Kernel ∅ 1)) = Ok (Image "echo" ["echo"; "4242"] setup) ∧
    fd_stdout setup = Opened "out.txt" O_WRONLY_CREAT_TRUNC ∧
    ∃ c', parseUserCmd 4242 "badprog" initial_cmdline = Ok c' ∧
          child_process (λ _ _, true) (λ name, bool_decide (name = "echo")) c'
            (initial_shell (Kernel ∅ 1)) = Exited 1.
Proof.
  destruct (parseUserCmd_returns 4242 "echo $$ > out.txt &" initial_cmdline
              allocated_initial) as [c Hc].
  { by_evaluation. }
  destruct (parseUserCmd_returns 4242 "badprog" initial_cmdline
              allocated_initial) as [c' Hc'].
  { by_evaluation. }
  assert (Hops : input c = None ∧ output c = Some "out.txt" ∧
                 backgroundFlag c = true).
  { unfold parseUserCmd in Hc. change (tokens "echo $$ > out.txt &")
      with ["echo"; "$$"; ">"; "out.txt"; "&"] in Hc.
    apply bind_Ok in Hc as (a & _ & Hc).
    by apply (parse_rest_operators 4242 4 _ 1) in Hc as (-> & -> & ->). }
  destruct Hops as (Hi & Ho & Hb).
  assert (Hsetup : child_branch (λ _ _, true) (input c) (output c)
                     (backgroundFlag c) (initial_shell (Kernel ∅ 1)) =
                   Ok (ChildSetup (Opened "/dev/null" O_RDONLY)
                         (Opened "out.txt" O_WRONLY_CREAT_TRUNC)
                         SigIgnore SigIgnore))
    by (rewrite Hi, Ho, Hb; reflexivity).
  exists c, (ChildSetup (Opened "/dev/null" O_RDONLY)
               (Opened "out.txt" O_WRONLY_CREAT_TRUNC) SigIgnore SigIgnore).
  split; [exact Hc|].
  split; [exact (child_process_of_line _ _ 4242 "echo $$ > out.txt &" "echo"
                   ["$$"; ">"; "out.txt"; "&"] _ _ _ _ Hc eq_refl Hsetup)|].
  split; [reflexivity|].
  exists c'. split; [exact Hc'|].
  assert (Hops' : input c' = None ∧ output c' = None ∧
                  backgroundFlag c' = false).
  { unfold parseUserCmd in Hc'. change (tokens "badprog") with ["badprog"] in Hc'.
    apply bind_Ok in Hc' as (a & _ & Hc').
    by apply (parse_rest_operators 4242 0 _ 1) in Hc' as (-> & -> & ->). }
  destruct Hops' as (Hi' & Ho' & Hb').
  assert (Hsetup' : child_branch (λ _ _, true) (input c') (output c')
                      (backgroundFlag c') (initial_shell (Kernel ∅ 1)) =
                    Ok (ChildSetup Inherited Inherited SigDefault SigIgnore))
    by (rewrite Hi', Ho', Hb'; reflexivity).
  exact (child_process_of_line _ _ 4242 "badprog" "badprog" [] _ _ _ _
           Hc' eq_refl Hsetup').
Defined.

(** * Reading the line *)



(** * The decision path *)

(** X22. What the loop does with a line the parser returned on is decided
    by the first token as typed, whatever follows it: a first token that
    starts with '#' means nothing is done; "cd" changes to the first
    argument (process ID expanded), or home when the line has none, and
    "exit" and "status" are the other built-ins, redirections and "&"
    on their lines notwithstanding; every other line is launched. *)
Theorem decide_action_of_line
    (parentPid : Z) (userline name : string) (more : list string)
    (c0 c : cmdline) :
  parseUserCmd parentPid userline c0 = Ok c →
  tokens userline = name :: more →
  decide_action c =
    Ok (if decide (String.get 0 name = Some "#"%char) then DoNothing
        else if decide (name = "cd")
             then ChangeDirectory (head (expanded parentPid <$> ordinary more))
        else if decide (name = "exit") then ExitShell
        else if decide (name = "status") then ReportStatus
        else Launch).
Proof.
  intros Hc Htok. unfold decide_action.
  rewrite (decide_action_name _ _ _ _ _ _ Htok Hc).
  repeat case_decide; try done.
  apply parseUserCmd_Ok in Hc as (_ & Hcount & Htake & Hnull & _).
  rewrite Htok in Hcount, Htake. simpl in Hcount, Htake.
  destruct (expanded parentPid <$> ordinary more) as [|arg rest] eqn:Hargs.
  - simpl in Hcount. rewrite Hcount in Hnull. by rewrite Hnull.
  - simpl in Hcount. rewrite Hcount in Htake. simpl in Htake.
    destruct (args c) as [|a0 [|a1 tl]]; inversion Htake; subst. done.
Qed.

Lemma decide_action_of_line_witness :
  ∃ c1 c2 c3,
    parseUserCmd 4242 "cd /tmp/$$ &" initial_cmdline = Ok c1 ∧
    decide_action c1 = Ok (ChangeDirectory (Some "/tmp/4242")) ∧
    parseUserCmd 4242 "cd > x" initial_cmdline = Ok c2 ∧
    decide_action c2 = Ok (ChangeDirectory None) ∧
    parseUserCmd 4242 "#cd /tmp" initial_cmdline = Ok c3 ∧
    decide_action c3 = Ok DoNothing.
Proof.
  destruct (parseUserCmd_returns 4242 "cd /tmp/$$ &" initial_cmdline
              allocated_initial) as [c1 H1].
  { by_evaluation. }
  destruct (parseUserCmd_returns 4242 "cd > x" initial_cmdline
              allocated_initial) as [c2 H2].
  { by_evaluation. }
  destruct (parseUserCmd_returns 4242 "#cd /tmp" initial_cmdline
              allocated_initial) as [c3 H3].
  { by_evaluation. }
  exists c1, c2, c3.
  split; [exact H1|].
  split; [exact (decide_action_of_line 4242 "cd /tmp/$$ &" "cd" ["/tmp/$$"; "&"]
                   _ _ H1 eq_refl)|].
  split; [exact H2|].
  split; [exact (decide_action_of_line 4242 "cd > x" "cd" [">"; "x"]
                   _ _ H2 eq_refl)|].
  split; [exact H3|].
  exact (decide_action_of_line 4242 "#cd /tmp" "#cd" ["/tmp"] _ _ H3 eq_refl).
Defined.

(** * Further properties of the handler *)

(** X23. The numbers of bytes the handler writes fit its messages: it
    writes the message for the new mode in full, up to and including the
    newline, and after it the prompt character ':' exactly when no
    foreground wait is in progress ([fgPidForSignal] is -5). *)
Theorem toggle_mode_notification (s : shell) :
  stdout (toggle_mode s) =
    stdout s ++
    [(if foregroundOnly s
      then nl +:+ "Exiting foreground only mode." +:+ nl
      else nl +:+ "Entering foreground only mode. (& is now ignored)" +:+ nl)
     +:+ (if fgPidForSignal s =? -5 then ":" else "")].
Proof.
  unfold toggle_mode, write_stdout, print.
  cbn [foregroundOnly fgPidForSignal set_foregroundOnly stdout].
  by destruct (foregroundOnly s), (fgPidForSignal s =? -5).
Qed.

(** X24. A mode-toggle signal handled during a foreground wait costs the
    shell the status of that command.  The handler, started while [main]
    waits for the child [forkPid], reaps the terminated child itself; the
    wait of [main] then finds no child, returns -1 and leaves
    [childExitMethod] at the value of the command before, which is
    reported once more if that command was terminated by a signal. *)
Theorem toggle_during_foreground_wait (forkPid g status : Z) (s : shell) :
  0 < forkPid →
  fgPidForSignal s = forkPid →
  children (os s) !! forkPid = Some (Proc g (Zombie status)) →
  ∃ s1 s2,
    catchSIGTSTP s = Ok s1 ∧
    wait_foreground forkPid s1 = Ok s2 ∧
    children (os s2) !! forkPid = None ∧
    childExitMethod s2 = childExitMethod s ∧
    foregroundOnly s2 = negb (foregroundOnly s) ∧
    fgPidForSignal s2 = -5 ∧
    stdout s2 =
      stdout s1 ++
      (if WIFSIGNALED (childExitMethod s)
       then reportExitStatus (childExitMethod s) else []).
Proof.
  intros Hpos Hfg Hz.
  set (k1 := Kernel (delete forkPid (children (os s))) (own_pgrp (os s))).
  assert (H1 : catchSIGTSTP s = Ok (toggle_mode (set_os k1 s))).
  { unfold catchSIGTSTP. rewrite Hfg.
    by rewrite (waitpid_zombie _ _ _ _ g status). }
  destruct (toggle_mode_frame (set_os k1 s)) as (Hf1 & Hc1 & Hp1 & Hn1 & Ho1).
  set (s1 := toggle_mode (set_os k1 s)) in *.
  cbn [set_os fgPidForSignal childExitMethod backgroundPids
       backgroundPidCount os] in Hf1, Hc1, Hp1, Hn1, Ho1.
  assert (Hgone : children (os s1) !! forkPid = None)
    by (rewrite Ho1; apply lookup_delete_eq).
  assert (Hw : waitpid forkPid (childExitMethod s1) 0 (os s1) =
               Ok (-1, childExitMethod s1, os s1))
    by by apply waitpid_no_child.
  assert (H2 : ∃ s2, wait_foreground forkPid s1 = Ok s2 ∧
             stdout s2 = stdout s1 ++
               (if WIFSIGNALED (childExitMethod s)
                then reportExitStatus (childExitMethod s) else [])).
  { unfold wait_foreground.
    cbn [os childExitMethod set_fgPidForSignal]. rewrite Hw.
    cbn [mbind result_bind childExitMethod set_fgPidForSignal set_os
         set_childExitMethod]. rewrite Hc1.
    destruct (WIFSIGNALED (childExitMethod s)); eexists; split; try done.
    simpl. by rewrite app_nil_r. }
  destruct H2 as (s2 & H2 & Hout).
  exists s1, s2. split; [done|]. split; [done|].
  apply wait_foreground_effect in H2
    as (ret & st & Hw2 & Hst & Hsig & Hmode & _).
  rewrite Hw in Hw2. injection Hw2 as _ Hst2 Hos2.
  split; [by rewrite <- Hos2|]. split; [congruence|].
  split; [|done]. rewrite Hmode. unfold s1. by rewrite toggle_mode_flag.
Qed.

Lemma toggle_during_foreground_wait_witness :
  ∃ s1 s2,
    catchSIGTSTP
      (MkShell false 4243 2 (replicate 100 0) 0 (-5)
         (Kernel {[4243 := Proc 1 (Zombie 0)]} 1) []) = Ok s1 ∧
    wait_foreground 4243 s1 = Ok s2 ∧
    childExitMethod s2 = 2 ∧
    foregroundOnly s2 = true ∧
    stdout s2 = stdout s1 ++ ["Terminating Signal: 2" +:+ nl].
Proof.
  destruct (toggle_during_foreground_wait 4243 1 0
              (MkShell false 4243 2 (replicate 100 0) 0 (-5)
                 (Kernel {[4243 := Proc 1 (Zombie 0)]} 1) []))
    as (s1 & s2 & H1 & H2 & _ & Hst & Hmode & _ & Hout);
    [lia | reflexivity | reflexivity |].
  exists s1, s2. split; [exact H1|]. split; [exact H2|].
  split; [exact Hst|]. split; [exact Hmode | exact Hout].
Defined.

(** * What the sweep leaves alone *)

(** X25. A sweep touches the registry, the kernel's children and the
    output, and nothing else: the registry afterwards is the registry
    before with some entries taken out, in the same order; the output is
    the output before with lines added at the end; no child appears; and
    [childExitMethod], which the [status] built-in reports, the mode and
    [fgPidForSignal] keep their values. *)
Theorem reap_sweep_frame (s s' : shell) :
  reap_sweep s = Ok s' →
  registry s' `sublist_of` registry s ∧
  (∃ more, stdout s' = stdout s ++ more) ∧
  (∀ pid, children (os s) !! pid = None → children (os s') !! pid = None) ∧
  childExitMethod s' = childExitMethod s ∧
  foregroundOnly s' = foregroundOnly s ∧
  fgPidForSignal s' = fgPidForSignal s.
Proof.
  intros H. pose proof (sweep_from_sublist _ _ _ _ H) as Hsub.
  apply sweep_from_monotone in H as (Hnone & Hout & Hfo & Hfg & Hce & _).
  done.
Qed.

Lemma reap_sweep_frame_witness :
  ∃ s',
    reap_sweep
      (MkShell true (-5) 256 ([10; 11; 12] ++ replicate 97 0) 3 (-5)
         (Kernel {[10 := Proc 1 Running; 11 := Proc 1 (Zombie 0);
                   12 := Proc 1 Running]} 1) []) = Ok s' ∧
    registry s' `sublist_of` [10; 11; 12] ∧
    childExitMethod s' = 256 ∧ foregroundOnly s' = true.
Proof.
  match goal with
  | |- ∃ s', reap_sweep ?s = _ ∧ _ =>
      destruct (reap_sweep_returns s) as [s' Hs']; [vm_compute; lia|];
      exists s'; split; [exact Hs'|];
      destruct (reap_sweep_frame s s' Hs') as (Hsub & _ & _ & Hce & Hfo & _)
  end.
  split; [exact Hsub|]. split; [exact Hce | exact Hfo].
Defined.
